(** * Event similarity predictor: nearest-centroid matching

    A shallow embedding of [ml/train_event_similarity_predictor.py]
    (haversine distance, centroid builder, composite distance, predictor,
    and the month table and start hour of the feature extraction) and of the
    threshold sweep of [ml/tune_similarity_threshold.py].

    Numbers.  Finite floating-point values are idealised as the reals [R]
    with exact arithmetic; rounding and overflow are not modelled.  The
    special values the program itself manipulates are kept apart from the
    finite ones: [np.nan] and [None] in a coordinate slot ([coord]),
    [float('inf')] and [nan] in a distance ([dist]).  Infinite inputs and
    missing temporal features lie outside the model, and so does what NumPy
    returns for a division by a zero threshold.

    Where the idealisation shows.  Binary64 arithmetic differs from the
    reals in three ways that matter here.  For nearly antipodal points the
    haversine term can round above 1, and [math.sqrt(1-a)] then raises
    [ValueError]; over the reals that branch of [math_sqrt] is never taken.
    Squares of huge inputs overflow to [inf].  And a result can round to a
    neighbouring value: the mean of equal samples need not be the sample,
    and the confidence can be 1.0 at a tiny positive distance.  The
    statements are therefore limited to what both arithmetics agree on:
    comparisons, counts, the outcomes decided by [None] and [nan], values
    that are computed without rounding, and equations between an outcome
    and the expression the code evaluates.  Where the geo-distance decides,
    they speak of whatever outcome it has, [ValueError] included.  The
    module [Binary64] repeats the query path of [predict] over binary64
    itself, for the one statement that rounding refutes.

    Libraries.  The pieces of pandas, NumPy, scikit-learn and [math] the
    program calls are modelled by their documented behaviour:
    [value_counts], [mean] (missing values skipped), [std] and [isna];
    [np.isnan], which has no loop for [None] and raises [TypeError];
    [StandardScaler], unfitted until [fit], with a zero scale replaced by 1;
    [math.sqrt], which raises on a negative argument, and [math.atan2].

    State.  The predictor is a record; its methods are functions from that
    record to a result and a record, composed with [mbind]. *)

From Stdlib Require Import Reals Lra Lia ZArith List String.
From Stdlib Require Import Permutation Sorted.
From Stdlib Require PrimFloat.
Import ListNotations.
Open Scope R_scope.

(** ** Python values and exceptions *)

(** The exceptions the modelled code can raise. *)
Inductive exn : Type :=
| TypeError        (* np.isnan(None), radians(None) *)
| ValueError       (* math.sqrt of a negative number; fit on an empty table *)
| NotFittedError.  (* StandardScaler.transform before fit *)

Inductive result (A : Type) : Type :=
| Ok (a : A)
| Raise (e : exn).
Arguments Ok {A} a.
Arguments Raise {A} e.

Definition rbind {A B} (r : result A) (k : A -> result B) : result B :=
  match r with
  | Ok a => k a
  | Raise e => Raise e
  end.

Declare Scope result_scope.
Delimit Scope result_scope with result.
Notation "x <- r ;; k" := (rbind r (fun x => k))
  (at level 61, r at next level, right associativity) : result_scope.

(** What a coordinate slot of a feature tuple can hold: Python's [None], the
    float [nan], or a finite float. *)
Inductive coord : Type :=
| PyNone
| NaN
| Num (r : R).

(** A distance as the predictor handles it: a finite float, [nan], or the
    [float('inf')] that initialises the nearest-centroid search. *)
Inductive dist : Type :=
| DFin (r : R)
| DNaN
| DInf.

(** [np.isnan] on a scalar: no loop for [None], hence a [TypeError]. *)
Definition np_isnan (x : coord) : result bool :=
  match x with
  | PyNone => Raise TypeError
  | NaN => Ok true
  | Num _ => Ok false
  end.

(** [pandas.isna]: [None] and [nan] both count as missing. *)
Definition isna (x : coord) : bool :=
  match x with
  | Num _ => false
  | _ => true
  end.

(** IEEE comparisons on distances: anything compared with [nan] is false. *)
Definition dist_lt (a b : dist) : bool :=
  match a, b with
  | DFin x, DFin y => if Rlt_dec x y then true else false
  | DFin _, DInf => true
  | _, _ => false
  end.

(** ** Geo-distance primitive *)

(** [math.radians]; [None] hands a non-number to the C function. The finite
    result is [Some], [nan] is [None]. *)
Definition radians (x : coord) : result (option R) :=
  match x with
  | PyNone => Raise TypeError
  | NaN => Ok None
  | Num r => Ok (Some (r * PI / 180))
  end.

(** [math.sqrt] raises on a negative argument. *)
Definition math_sqrt (x : R) : result R :=
  if Rlt_dec x 0 then Raise ValueError else Ok (sqrt x).

(** [math.atan2 y x], the angle of the point [(x, y)] in (-pi, pi]. *)
Definition atan2 (y x : R) : R :=
  if Rlt_dec 0 x then atan (y / x)
  else if Rlt_dec x 0 then
         (if Rle_dec 0 y then atan (y / x) + PI else atan (y / x) - PI)
  else if Rlt_dec 0 y then PI / 2
  else if Rlt_dec y 0 then - (PI / 2)
  else 0.

(** The haversine term [a] on angles already in radians. *)
Definition hav_a (lat1 lon1 lat2 lon2 : R) : R :=
  let dlat := lat2 - lat1 in
  let dlon := lon2 - lon1 in
  (sin (dlat / 2)) ^ 2 + cos lat1 * cos lat2 * (sin (dlon / 2)) ^ 2.

(** The body of [haversine_distance] once the four angles are finite. *)
Definition haversine_rad (lat1 lon1 lat2 lon2 : R) : result R :=
  let a := hav_a lat1 lon1 lat2 lon2 in
  (sa <- math_sqrt a ;;
   sb <- math_sqrt (1 - a) ;;
   let c := 2 * atan2 sa sb in
   Ok (6371 * c))%result.

(** [haversine_distance]: [map(radians, ...)] is unpacked at once, so every
    argument is converted (and a [None] detected) before any arithmetic; a
    [nan] then propagates through [-], [/], [sin], [cos], [sqrt], [atan2]. *)
Definition haversine_distance (lat1 lon1 lat2 lon2 : coord) : result dist :=
  (lat1 <- radians lat1 ;;
   lon1 <- radians lon1 ;;
   lat2 <- radians lat2 ;;
   lon2 <- radians lon2 ;;
   match lat1, lon1, lat2, lon2 with
   | Some lat1, Some lon1, Some lat2, Some lon2 =>
       d <- haversine_rad lat1 lon1 lat2 lon2 ;; Ok (DFin d)
   | _, _, _, _ => Ok DNaN
   end)%result.

(** ** Feature normalizer *)

Definition R3 : Type := (R * R * R)%type.

(** [sklearn.preprocessing.StandardScaler]: [None] until fitted, then the
    per-column [mean_] and [scale_]. *)
Record scaler_params : Type := {
  mean_ : R3;
  scale_ : R3
}.

Definition StandardScaler : Type := option scaler_params.

(** [(X - mean_) / scale_], column by column. *)
Definition normalize (p : scaler_params) (row : R3) : R3 :=
  let '(x1, x2, x3) := row in
  let '(m1, m2, m3) := mean_ p in
  let '(s1, s2, s3) := scale_ p in
  ((x1 - m1) / s1, (x2 - m2) / s2, (x3 - m3) / s3).

Definition transform (scaler : StandardScaler) (row : R3) : result R3 :=
  match scaler with
  | None => Raise NotFittedError
  | Some p => Ok (normalize p row)
  end.

(** ** Composite distance *)

(** A feature tuple [(day_of_year, distance_km, start_hour, start_lat,
    start_lng)]. *)
Record features : Type := {
  day_of_year : R;
  distance_km : R;
  start_hour : R;
  start_lat : coord;
  start_lng : coord
}.

(** [np.sqrt(np.sum((norm1 - norm2) ** 2))]. *)
Definition euclid (n1 n2 : R3) : R :=
  let '(a1, a2, a3) := n1 in
  let '(b1, b2, b3) := n2 in
  sqrt ((a1 - b1) ^ 2 + (a2 - b2) ^ 2 + (a3 - b3) ^ 2).

Definition temporal (f : features) : R3 :=
  (day_of_year f, distance_km f, start_hour f).

(** [0.5 * temporal_dist + 0.5 * (coord_dist / 10.0)]. *)
Definition combine (temporal_dist : R) (coord_dist : dist) : dist :=
  match coord_dist with
  | DFin c => DFin (0.5 * temporal_dist + 0.5 * (c / 10))
  | DNaN => DNaN
  | DInf => DInf
  end.

Definition custom_distance (features1 features2 : features)
    (scaler : StandardScaler) : result dist :=
  (norm1 <- transform scaler (temporal features1) ;;
   norm2 <- transform scaler (temporal features2) ;;
   let temporal_dist := euclid norm1 norm2 in
   (* [np.isnan(lat1) or np.isnan(lat2)]: the right operand is evaluated
      only when the left one is false *)
   n1 <- np_isnan (start_lat features1) ;;
   missing <- (if n1 then Ok true else np_isnan (start_lat features2)) ;;
   if negb missing then
     coord_dist <- haversine_distance (start_lat features1) (start_lng features1)
                                      (start_lat features2) (start_lng features2) ;;
     Ok (combine temporal_dist coord_dist)
   else
     Ok (DFin temporal_dist))%result.

(** ** Training table and centroid builder *)

(** One row of the feature table produced by [extract_simple_features]. *)
Record row : Type := {
  feat : features;
  event_name : string
}.

Definition DataFrame : Type := list row.

(** The aggregate stored per event by [compute_event_centroids]. *)
Record centroid : Type := {
  c_day_of_year : R;
  c_distance_km : R;
  c_start_hour : R;
  c_start_lat : coord;
  c_start_lng : coord;
  sample_count : nat;
  std_distance : dist
}.

(** A Python [dict] keyed by event name: insertion-ordered, keys unique. *)
Definition dict (V : Type) : Type := list (string * V).

Fixpoint dict_set {V} (d : dict V) (k : string) (v : V) : dict V :=
  match d with
  | [] => [(k, v)]
  | (k', v') :: rest =>
      if String.eqb k' k then (k, v) :: rest else (k', v') :: dict_set rest k v
  end.

Definition keys {V} (d : dict V) : list string := map fst d.

Definition count_event (e : string) (df : DataFrame) : nat :=
  List.length (filter (fun r => String.eqb (event_name r) e) df).

(** Labels in order of first appearance. *)
Fixpoint first_seen (seen : list string) (l : list string) : list string :=
  match l with
  | [] => []
  | x :: t =>
      if in_dec string_dec x seen then first_seen seen t
      else x :: first_seen (x :: seen) t
  end.

Fixpoint insert_desc (x : string * nat) (l : list (string * nat))
    : list (string * nat) :=
  match l with
  | [] => [x]
  | y :: t => if (snd y <=? snd x)%nat then x :: y :: t else y :: insert_desc x t
  end.

Definition sort_desc (l : list (string * nat)) : list (string * nat) :=
  fold_right insert_desc [] l.

(** [Series.value_counts()]: one entry per distinct label with its number of
    rows, most frequent first.  (The order pandas gives to equal counts is
    an internal matter; here they keep their order of first appearance.) *)
Definition value_counts (df : DataFrame) : list (string * nat) :=
  sort_desc (map (fun e => (e, count_event e df))
                 (first_seen [] (map event_name df))).

Definition Rsum (l : list R) : R := fold_right Rplus 0 l.

(** [Series.mean()] on a column without missing values. *)
Definition mean (l : list R) : R := Rsum l / INR (List.length l).

(** The non-missing entries of a column. *)
Fixpoint present (l : list coord) : list R :=
  match l with
  | [] => []
  | Num r :: t => r :: present t
  | _ :: t => present t
  end.

(** [Series.mean()] with the default [skipna=True]. *)
Definition mean_skipna (l : list coord) : coord :=
  match present l with
  | [] => NaN
  | p => Num (mean p)
  end.

(** [Series.std()], the sample standard deviation ([ddof=1]). *)
Definition std (l : list R) : dist :=
  if (List.length l <=? 1)%nat then DNaN
  else DFin (sqrt (Rsum (map (fun x => (x - mean l) ^ 2) l)
                   / INR (List.length l - 1))).

Definition spatial_mean (col : list coord) : coord :=
  if negb (forallb isna col) then mean_skipna col else PyNone.

Definition make_centroid (event_data : DataFrame) : centroid :=
  {| c_day_of_year := mean (map (fun r => day_of_year (feat r)) event_data);
     c_distance_km := mean (map (fun r => distance_km (feat r)) event_data);
     c_start_hour := mean (map (fun r => start_hour (feat r)) event_data);
     c_start_lat := spatial_mean (map (fun r => start_lat (feat r)) event_data);
     c_start_lng := spatial_mean (map (fun r => start_lng (feat r)) event_data);
     sample_count := List.length event_data;
     std_distance := std (map (fun r => distance_km (feat r)) event_data) |}.

Definition MIN_SAMPLES_PER_EVENT : Z := 3.
Definition DISTANCE_THRESHOLD : R := 0.40.

Definition well_defined_events (df : DataFrame) (min_samples : Z)
    : list string :=
  map fst (filter (fun en => (min_samples <=? Z.of_nat (snd en))%Z)
                  (value_counts df)).

Definition event_rows (df : DataFrame) (event : string) : DataFrame :=
  filter (fun r => String.eqb (event_name r) event) df.

Definition compute_event_centroids (features_df : DataFrame)
    (min_samples : Z) : dict centroid :=
  fold_left
    (fun centroids event =>
       dict_set centroids event (make_centroid (event_rows features_df event)))
    (well_defined_events features_df min_samples)
    [].

(** ** StandardScaler.fit *)

(** Population variance of a column. *)
Definition var (l : list R) : R :=
  Rsum (map (fun x => (x - mean l) ^ 2) l) / INR (List.length l).

(** sklearn replaces a zero scale by 1 so that [transform] never divides
    by zero. *)
Definition handle_zeros_in_scale (s : R) : R :=
  if Req_dec_T s 0 then 1 else s.

Definition column_scale (l : list R) : R := handle_zeros_in_scale (sqrt (var l)).

(** [StandardScaler().fit(X)] on the three temporal columns; an empty table
    is rejected. *)
Definition StandardScaler_fit (X : list R3) : result scaler_params :=
  match X with
  | [] => Raise ValueError
  | _ =>
      let c1 := map (fun x => fst (fst x)) X in
      let c2 := map (fun x => snd (fst x)) X in
      let c3 := map (fun x => snd x) X in
      Ok {| mean_ := (mean c1, mean c2, mean c3);
            scale_ := (column_scale c1, column_scale c2, column_scale c3) |}
  end.

(** ** The predictor object *)

Record EventSimilarityPredictor : Type := {
  centroids : dict centroid;
  scaler : StandardScaler;
  distance_threshold : R
}.

(** [__init__]: no centroid, an unfitted scaler. *)
Definition init (distance_threshold : R) : EventSimilarityPredictor :=
  {| centroids := [];
     scaler := None;
     distance_threshold := distance_threshold |}.

(** Methods run against [self]: they read and write its attributes and end
    with a value or an exception; the object survives the exception. *)
Definition M (A : Type) : Type :=
  EventSimilarityPredictor -> result A * EventSimilarityPredictor.

Definition mret {A} (a : A) : M A := fun self => (Ok a, self).

Definition mbind {A B} (m : M A) (k : A -> M B) : M B :=
  fun self =>
    match m self with
    | (Ok a, self') => k a self'
    | (Raise e, self') => (Raise e, self')
    end.

Definition lift {A} (r : result A) : M A := fun self => (r, self).

Definition get {A} (attr : EventSimilarityPredictor -> A) : M A :=
  fun self => (Ok (attr self), self).

Definition set_centroids (cs : dict centroid) : M unit :=
  fun self =>
    (Ok tt, {| centroids := cs;
               scaler := scaler self;
               distance_threshold := distance_threshold self |}).

Definition set_scaler (s : StandardScaler) : M unit :=
  fun self =>
    (Ok tt, {| centroids := centroids self;
               scaler := s;
               distance_threshold := distance_threshold self |}).

Definition eval {A} (m : M A) (self : EventSimilarityPredictor) : result A :=
  fst (m self).

Definition exec {A} (m : M A) (self : EventSimilarityPredictor)
    : EventSimilarityPredictor :=
  snd (m self).

Declare Scope method_scope.
Delimit Scope method_scope with method.
Notation "x <- m ;; k" := (mbind m (fun x => k))
  (at level 61, m at next level, right associativity) : method_scope.
Notation "m ;;; k" := (mbind m (fun _ => k))
  (at level 61, right associativity) : method_scope.

(** [fit] assigns the centroids first and then calls [self.scaler.fit].
    scikit-learn's [StandardScaler.fit] resets the fitted attributes before
    it validates its input, so a rejected table leaves the normalizer
    unfitted, whatever it held before. *)
Definition fit (features_df : DataFrame) : M unit :=
  (set_centroids (compute_event_centroids features_df MIN_SAMPLES_PER_EVENT) ;;;
   set_scaler None ;;;
   p <- lift (StandardScaler_fit (map (fun r => temporal (feat r)) features_df)) ;;
   set_scaler (Some p))%method.

Definition centroid_vector (c : centroid) : features :=
  {| day_of_year := c_day_of_year c;
     distance_km := c_distance_km c;
     start_hour := c_start_hour c;
     start_lat := c_start_lat c;
     start_lng := c_start_lng c |}.

(** The search loop of [predict] over [self.centroids.items()], threading
    the locals [(min_distance, nearest_event)]. *)
Fixpoint nearest (feature_vector : features) (scaler : StandardScaler)
    (items : dict centroid) (acc : dist * option string)
    : result (dist * option string) :=
  match items with
  | [] => Ok acc
  | (event_name, centroid) :: rest =>
      (d <- custom_distance feature_vector (centroid_vector centroid) scaler ;;
       if dist_lt d (fst acc)
       then nearest feature_vector scaler rest (d, Some event_name)
       else nearest feature_vector scaler rest acc)%result
  end.

Definition prediction : Type := (option string * dist * R)%type.

(** The threshold gate.  [inf <= t] and [nan <= t] are false for a finite
    threshold [t]. *)
Definition gate (min_distance : dist) (nearest_event : option string)
    (threshold : R) : prediction :=
  match min_distance with
  | DFin d =>
      if Rle_dec d threshold
      then (nearest_event, DFin d, 1 - d / threshold)
      else (None, DFin d, 0)
  | other => (None, other, 0)
  end.

Definition predict (features : features) : M prediction :=
  (let feature_vector := features in
   items <- get centroids ;;
   sc <- get scaler ;;
   found <- lift (nearest feature_vector sc items (DInf, None)) ;;
   threshold <- get distance_threshold ;;
   mret (gate (fst found) (snd found) threshold))%method.

(** One row of the table returned by [predict_batch]. *)
Record prediction_row : Type := {
  predicted_event : option string;
  distance : dist;
  confidence : R;
  actual_event : string
}.

Fixpoint predict_batch (features_df : DataFrame) : M (list prediction_row) :=
  match features_df with
  | [] => mret []
  | r :: rest =>
      (p <- predict (feat r) ;;
       predictions <- predict_batch rest ;;
       mret ({| predicted_event := fst (fst p);
                distance := snd (fst p);
                confidence := snd p;
                actual_event := event_name r |} :: predictions))%method
  end.

(** ** The same query path over binary64

    The definitions above compute with exact reals.  This module repeats
    [custom_distance], the search loop and the threshold test of [predict]
    over IEEE binary64 numbers, the arithmetic the program runs on, so that
    what rounding does to the returned confidence can be computed.  A
    coordinate is [None] for Python's [None] and [Some x] for a float, [nan]
    included.  [math]'s trigonometric functions have no binary64 counterpart
    here: the geo-distance primitive is a parameter, which a query without
    latitude never reaches. *)
Module Binary64.
Import PrimFloat.
#[local] Open Scope float_scope.
#[local] Set Warnings "-inexact-float".

Definition F3 : Type := (float * float * float)%type.

Record scaler_params : Type := {
  mean_ : F3;
  scale_ : F3
}.

Record features : Type := {
  day_of_year : float;
  distance_km : float;
  start_hour : float;
  start_lat : option float;
  start_lng : option float
}.

(** The attributes of the predictor; each centroid is given by the five
    fields [predict] reads. *)
Record EventSimilarityPredictor : Type := {
  centroids : dict features;
  scaler : option scaler_params;
  distance_threshold : float
}.

Definition prediction : Type := (option string * float * float)%type.

Definition np_isnan (x : option float) : result bool :=
  match x with
  | None => Raise TypeError
  | Some v => Ok (is_nan v)
  end.

Definition normalize (p : scaler_params) (row : F3) : F3 :=
  let '(x1, x2, x3) := row in
  let '(m1, m2, m3) := mean_ p in
  let '(s1, s2, s3) := scale_ p in
  ((x1 - m1) / s1, (x2 - m2) / s2, (x3 - m3) / s3).

Definition transform (scaler : option scaler_params) (row : F3) : result F3 :=
  match scaler with
  | None => Raise NotFittedError
  | Some p => Ok (normalize p row)
  end.

(** [np.sqrt(np.sum((norm1 - norm2) ** 2))]: NumPy squares by a
    multiplication and adds the three terms from left to right. *)
Definition euclid (n1 n2 : F3) : float :=
  let '(a1, a2, a3) := n1 in
  let '(b1, b2, b3) := n2 in
  sqrt ((a1 - b1) * (a1 - b1) + (a2 - b2) * (a2 - b2) + (a3 - b3) * (a3 - b3)).

Definition temporal (f : features) : F3 :=
  (day_of_year f, distance_km f, start_hour f).

Section Predict.

Variable haversine_distance :
  option float -> option float -> option float -> option float -> result float.

Definition custom_distance (features1 features2 : features)
    (scaler : option scaler_params) : result float :=
  (norm1 <- transform scaler (temporal features1) ;;
   norm2 <- transform scaler (temporal features2) ;;
   let temporal_dist := euclid norm1 norm2 in
   n1 <- np_isnan (start_lat features1) ;;
   missing <- (if n1 then Ok true else np_isnan (start_lat features2)) ;;
   if negb missing then
     coord_dist <- haversine_distance (start_lat features1) (start_lng features1)
                                      (start_lat features2) (start_lng features2) ;;
     Ok (0.5 * temporal_dist + 0.5 * (coord_dist / 10))
   else
     Ok temporal_dist)%result.

Fixpoint nearest (feature_vector : features) (scaler : option scaler_params)
    (items : dict features) (acc : float * option string)
    : result (float * option string) :=
  match items with
  | [] => Ok acc
  | (event_name, centroid_vector) :: rest =>
      (d <- custom_distance feature_vector centroid_vector scaler ;;
       if d <? fst acc
       then nearest feature_vector scaler rest (d, Some event_name)
       else nearest feature_vector scaler rest acc)%result
  end.

Definition predict (features : features) (self : EventSimilarityPredictor)
    : result prediction :=
  (found <- nearest features (scaler self) (centroids self) (infinity, None) ;;
   let min_distance := fst found in
   let nearest_event := snd found in
   if min_distance <=? distance_threshold self
   then Ok (nearest_event, min_distance,
            1 - min_distance / distance_threshold self)
   else Ok (None, min_distance, 0))%result.

End Predict.

(** The state [fit] leaves on three runs [(100, 10, 0.0, nan, nan)] of an
    event "A" under the default threshold: one centroid without
    coordinates, the column means, and scales 1 in place of the zero
    deviation of the constant columns. *)
Definition fitted_flat : EventSimilarityPredictor :=
  {| centroids := [("A"%string,
                    {| day_of_year := 100; distance_km := 10; start_hour := 0;
                       start_lat := None; start_lng := None |})];
     scaler := Some {| mean_ := (100, 10, 0); scale_ := (1, 1, 1) |};
     distance_threshold := 0.40 |}.

(** A run like those of "A", started [1e-17] hours after midnight, without
    start point. *)
Definition query_just_after : features :=
  {| day_of_year := 100; distance_km := 10; start_hour := 1e-17;
     start_lat := Some nan; start_lng := Some nan |}.

Definition just_after : float := 1e-17.

End Binary64.

(** ** Threshold sweep *)

Definition option_string_eqb (a : option string) (b : string) : bool :=
  match a with
  | Some x => String.eqb x b
  | None => false
  end.

Definition is_known (known_events : list string) (p : prediction_row) : bool :=
  if in_dec string_dec (actual_event p) known_events then true else false.

(** [correct]: rows of a known event predicted as that event. *)
Definition correct (known_events : list string) (ps : list prediction_row) : nat :=
  List.length (filter (fun p => option_string_eqb (predicted_event p) (actual_event p))
                 (filter (is_known known_events) ps)).

(** [correct_rejected]: rows of an unknown event predicted as [None]. *)
Definition correct_rejected (known_events : list string)
    (ps : list prediction_row) : nat :=
  List.length (filter (fun p => match predicted_event p with None => true | Some _ => false end)
                 (filter (fun p => negb (is_known known_events p)) ps)).

(** One iteration of the sweep: a fresh predictor with the given threshold
    is fitted on the training split and run on the test split. *)
Definition sweep_step (train_features test_features : DataFrame)
    (threshold : R) : result (list prediction_row) * EventSimilarityPredictor :=
  (fit train_features ;;; predict_batch test_features)%method (init threshold).

(** A caller's view of the predictor between calls. *)
Inductive call : Type :=
| CallPredict (features : features)
| CallPredictBatch (features_df : DataFrame).

Definition run_call (c : call) (self : EventSimilarityPredictor)
    : EventSimilarityPredictor :=
  match c with
  | CallPredict f => exec (predict f) self
  | CallPredictBatch df => exec (predict_batch df) self
  end.

Definition run_calls (cs : list call) (self : EventSimilarityPredictor)
    : EventSimilarityPredictor :=
  fold_left (fun s c => run_call c s) cs self.

(** ** Vocabulary of the statements *)

(** The temporal term under a fitted normalizer. *)
Definition temporal_distance (p : scaler_params) (f1 f2 : features) : R :=
  euclid (normalize p (temporal f1)) (normalize p (temporal f2)).

(** Both spatial fields present, as finite floats. *)
Definition has_coords (f : features) : Prop :=
  exists lat lng, start_lat f = Num lat /\ start_lng f = Num lng.

(** Both spatial fields absent, in the encoding [custom_distance] tests
    for: [nan]. *)
Definition lacks_coords (f : features) : Prop :=
  start_lat f = NaN /\ start_lng f = NaN.

(** IEEE [<=] on distances. *)
Definition dist_le (a b : dist) : bool :=
  match a, b with
  | DFin x, DFin y => if Rle_dec x y then true else false
  | DFin _, DInf => true
  | DInf, DInf => true
  | _, _ => false
  end.

(** The distance from a query to a stored centroid. *)
Definition centroid_distance (self : EventSimilarityPredictor)
    (q : features) (c : centroid) : result dist :=
  custom_distance q (centroid_vector c) (scaler self).

(** The locals are either still the initial pair or a centroid of the
    mapping together with its own finite distance. *)
Definition search_state fv sc (items : dict centroid)
    (acc : dist * option string) : Prop :=
  acc = (DInf, None) \/
  exists e c d, In (e, c) items /\
                custom_distance fv (centroid_vector c) sc = Ok (DFin d) /\
                acc = (DFin d, Some e).

(** Two prediction rows for the same activity, the second made under a
    threshold at least as large: a match stays the same match, and a
    rejection was a rejection already. *)
Definition agree (r1 r2 : prediction_row) : Prop :=
  actual_event r1 = actual_event r2 /\
  (forall e, predicted_event r1 = Some e -> predicted_event r2 = Some e) /\
  (predicted_event r2 = None -> predicted_event r1 = None).

(** The numbers recorded in one coordinate column for an event: one entry
    per row of the table that carries the event's label and holds a number
    there, in table order. *)
Fixpoint recorded (column : features -> coord) (event : string)
    (df : DataFrame) : list R :=
  match df with
  | [] => []
  | r :: rest =>
      match string_dec (event_name r) event, column (feat r) with
      | left _, Num x => x :: recorded column event rest
      | _, _ => recorded column event rest
      end
  end.

(** ** Sample tables and queries *)

Definition mk_row (day km hour : R) (lat lng : coord) (name : string) : row :=
  {| feat := {| day_of_year := day; distance_km := km; start_hour := hour;
                start_lat := lat; start_lng := lng |};
     event_name := name |}.

(** Three runs of one event, none with a recorded start point. *)
Definition train_no_coords : DataFrame :=
  [ mk_row 220 14 7 NaN NaN "A"%string;
    mk_row 221 14 7 NaN NaN "A"%string;
    mk_row 222 14 7 NaN NaN "A"%string ].

(** Two events with their rows interleaved: no run of "A" has a start
    point; the runs of "B" have one, except the second. *)
Definition train_two_events : DataFrame :=
  [ mk_row 220 14 7 NaN NaN "A"%string;
    mk_row 100 10 9 (Num 1) (Num 5) "B"%string;
    mk_row 221 14 7 NaN NaN "A"%string;
    mk_row 101 10 9 NaN NaN "B"%string;
    mk_row 222 14 7 NaN NaN "A"%string;
    mk_row 102 10 9 (Num 3) (Num 7) "B"%string ].

(** Three identical runs of one event at midnight, without start point. *)
Definition train_flat : DataFrame :=
  [ mk_row 100 10 0 NaN NaN "A"%string;
    mk_row 100 10 0 NaN NaN "A"%string;
    mk_row 100 10 0 NaN NaN "A"%string ].

(** Two events with identical runs. *)
Definition train_twins : DataFrame :=
  [ mk_row 100 10 7 (Num 0) (Num 0) "A"%string;
    mk_row 100 10 7 (Num 0) (Num 0) "A"%string;
    mk_row 100 10 7 (Num 0) (Num 0) "A"%string;
    mk_row 100 10 7 (Num 0) (Num 0) "B"%string;
    mk_row 100 10 7 (Num 0) (Num 0) "B"%string;
    mk_row 100 10 7 (Num 0) (Num 0) "B"%string ].

Definition query_with_coords : features :=
  {| day_of_year := 221; distance_km := 14; start_hour := 7;
     start_lat := Num 0; start_lng := Num 0 |}.

Definition query_without_coords : features :=
  {| day_of_year := 221; distance_km := 14; start_hour := 7;
     start_lat := NaN; start_lng := NaN |}.

(** A query at the twins' own position in time and distance. *)
Definition query_on_twins : features :=
  {| day_of_year := 100; distance_km := 10; start_hour := 7;
     start_lat := NaN; start_lng := NaN |}.

(** What [fit] computes on [train_twins]: the same centroid for both
    events, and a normalizer learnt from six identical rows. *)
Definition twin_centroid : centroid :=
  make_centroid (event_rows train_twins "A"%string).

Definition twin_scaler : scaler_params :=
  {| mean_ := (mean (repeat 100 6), mean (repeat 10 6), mean (repeat 7 6));
     scale_ := (column_scale (repeat 100 6), column_scale (repeat 10 6),
                column_scale (repeat 7 6)) |}.

(** The predictor after [__init__] and [fit]. *)
Definition fitted (df : DataFrame) (threshold : R) : EventSimilarityPredictor :=
  exec (fit df) (init threshold).

(** ** Vocabulary of the further properties *)

(** Degrees to radians, as [math.radians]. *)
Definition deg (x : R) : R := x * PI / 180.

(** The value of [haversine_distance] on four finite angles in degrees. *)
Definition haversine_km (lat1 lon1 lat2 lon2 : R) : R :=
  let a := hav_a (deg lat1) (deg lon1) (deg lat2) (deg lon2) in
  6371 * (2 * atan2 (sqrt a) (sqrt (1 - a))).

(** The same activity without its start point. *)
Definition strip_coords (f : features) : features :=
  {| day_of_year := day_of_year f; distance_km := distance_km f;
     start_hour := start_hour f; start_lat := NaN; start_lng := NaN |}.

(** Entries of [value_counts] in their output order: counts do not
    increase. *)
Definition count_ge (a b : string * nat) : Prop := (snd b <= snd a)%nat.

(** Two runs of one event: below the minimum support. *)
Definition train_sparse : DataFrame :=
  [ mk_row 220 14 7 (Num 1) (Num 5) "A"%string;
    mk_row 221 14 7 (Num 1) (Num 5) "A"%string ].

(** A query with a latitude and a [nan] longitude. *)
Definition query_nan_longitude : features :=
  {| day_of_year := 100; distance_km := 10; start_hour := 7;
     start_lat := Num 0; start_lng := NaN |}.

(** ** The calibration script *)

(** What the sweep can raise: an exception of the predictor, the [KeyError]
    of [predictions['actual_event']] on a table without columns (the table
    built from an empty list of rows), or the [NameError] of reading
    [correct] before any assignment. *)
Inductive script_exn : Type :=
| Inner (e : exn)
| KeyError
| NameError.

Inductive outcome (A : Type) : Type :=
| Done (a : A)
| Fail (e : script_exn).
Arguments Done {A} a.
Arguments Fail {A} e.

(** The module-level variables that survive from one iteration of the loop
    to the next; [None] is "not bound yet". *)
Record sweep_env : Type := {
  env_correct : option nat;
  env_correct_rejected : option nat
}.

Definition unbound : sweep_env :=
  {| env_correct := None; env_correct_rejected := None |}.

(** The numbers one iteration prints. *)
Record sweep_report : Type := {
  rep_threshold : R;
  rep_accuracy : R;
  rep_correct : nat;
  rep_known : nat;
  rep_reject_accuracy : R;
  rep_rejected : nat;
  rep_unknown : nat;
  rep_overall_accuracy : R;
  rep_overall_correct : nat;
  rep_total : nat
}.

Definition sweep_iteration (train_features test_features : DataFrame)
    (env : sweep_env) (threshold : R) : outcome (sweep_report * sweep_env) :=
  match sweep_step train_features test_features threshold with
  | (Raise e, _) => Fail (Inner e)
  | (Ok [], _) => Fail KeyError
  | (Ok predictions, predictor) =>
      let known_events := keys (centroids predictor) in
      let test_known := filter (is_known known_events) predictions in
      let test_unknown :=
        filter (fun p => negb (is_known known_events p)) predictions in
      let has_known := (0 <? List.length test_known)%nat in
      let has_unknown := (0 <? List.length test_unknown)%nat in
      let env1 :=
        if has_known
        then {| env_correct := Some (correct known_events predictions);
                env_correct_rejected := env_correct_rejected env |}
        else env in
      let accuracy :=
        if has_known
        then INR (correct known_events predictions) / INR (List.length test_known)
        else 0 in
      let env2 :=
        if has_unknown
        then {| env_correct := env_correct env1;
                env_correct_rejected :=
                  Some (correct_rejected known_events predictions) |}
        else env1 in
      let reject_accuracy :=
        if has_unknown
        then INR (correct_rejected known_events predictions)
             / INR (List.length test_unknown)
        else 0 in
      match env_correct env2 with
      | None => Fail NameError
      | Some c =>
          let rejected :=
            if has_unknown then correct_rejected known_events predictions
            else 0%nat in
          let overall_correct := (c + rejected)%nat in
          Done ({| rep_threshold := threshold;
                   rep_accuracy := accuracy;
                   rep_correct := c;
                   rep_known := List.length test_known;
                   rep_reject_accuracy := reject_accuracy;
                   rep_rejected := rejected;
                   rep_unknown := List.length test_unknown;
                   rep_overall_accuracy :=
                     INR overall_correct / INR (List.length predictions);
                   rep_overall_correct := overall_correct;
                   rep_total := List.length predictions |},
                env2)
      end
  end.

(** [for threshold in thresholds: ...]. *)
Fixpoint sweep (train_features test_features : DataFrame)
    (thresholds : list R) (env : sweep_env) : outcome (list sweep_report) :=
  match thresholds with
  | [] => Done []
  | threshold :: rest =>
      match sweep_iteration train_features test_features env threshold with
      | Fail e => Fail e
      | Done (report, env') =>
          match sweep train_features test_features rest env' with
          | Fail e => Fail e
          | Done reports => Done (report :: reports)
          end
      end
  end.

Definition thresholds : list R := [0.10; 0.15; 0.20; 0.25; 0.30; 0.40; 0.50].

(** Some row of the test table belongs to an event that [fit] retains. *)
Definition has_known_row (train test : DataFrame) : Prop :=
  exists r, In r test /\
            In (event_name r)
               (keys (compute_event_centroids train MIN_SAMPLES_PER_EVENT)).

(** What a report must satisfy to make sense. *)
Definition report_sound (rep : sweep_report) : Prop :=
  (rep_known rep + rep_unknown rep = rep_total rep)%nat /\
  (0 < rep_known rep)%nat /\
  (rep_correct rep <= rep_known rep)%nat /\
  (rep_rejected rep <= rep_unknown rep)%nat /\
  (rep_overall_correct rep = rep_correct rep + rep_rejected rep)%nat /\
  0 <= rep_accuracy rep <= 1 /\
  0 <= rep_reject_accuracy rep <= 1 /\
  0 <= rep_overall_accuracy rep <= 1.

(** A test table of one row, of a retained event and of an unknown one. *)
Definition test_known_row : DataFrame := [mk_row 100 10 7 NaN NaN "A"%string].
Definition test_unknown_row : DataFrame := [mk_row 100 10 7 NaN NaN "C"%string].

(** ** Feature extraction *)

(** The fallback table of [extract_simple_features]: a month and the day of
    the year that stands for it. *)
Definition month_table : list (Z * Z) :=
  [ (1, 15); (2, 45); (3, 74); (4, 105); (5, 135); (6, 166);
    (7, 196); (8, 227); (9, 258); (10, 288); (11, 319); (12, 349) ]%Z.

(** [Series.map(dict)]: a key absent from the dictionary gives a missing
    value. *)
Fixpoint dict_get (d : list (Z * Z)) (k : Z) : option Z :=
  match d with
  | [] => None
  | (k', v) :: rest => if (k' =? k)%Z then Some v else dict_get rest k
  end.

Definition month_to_day_of_year (month : Z) : option Z :=
  dict_get month_table month.

(** The calendar the table is compared with. *)
Definition days_in_month (leap : bool) (month : Z) : Z :=
  match month with
  | 2 => if leap then 29 else 28
  | 4 | 6 | 9 | 11 => 30
  | _ => 31
  end%Z.

Fixpoint days_before_nat (leap : bool) (n : nat) : Z :=
  match n with
  | O => 0
  | S k => (days_before_nat leap k + days_in_month leap (Z.of_nat (S k)))%Z
  end.

Definition days_before (leap : bool) (month : Z) : Z :=
  days_before_nat leap (Z.to_nat (month - 1)).

(** [dates.dt.hour + dates.dt.minute / 60.0]. *)
Definition start_hour_of (hour minute : Z) : R := IZR hour + IZR minute / 60.

(** * Properties *)

(** ** The result monad *)

Lemma rbind_ok {A B} (r : result A) (k : A -> result B) (b : B) :
  rbind r k = Ok b -> exists a, r = Ok a /\ k a = Ok b.
Proof.
  destruct r as [a|e]; simpl; intros H.
  - exists a. split; [reflexivity | exact H].
  - discriminate H.
Qed.

(** ** Haversine *)

Lemma half_angle_sin (x : R) : (sin (x / 2)) ^ 2 = (1 - cos x) / 2.
Proof.
  assert (H : cos (2 * (x / 2)) = 1 - 2 * sin (x / 2) * sin (x / 2))
    by apply cos_2a_sin.
  replace (2 * (x / 2)) with x in H by lra.
  simpl. lra.
Qed.

Lemma cos_product (u v : R) : cos u * cos v = (cos (v - u) + cos (v + u)) / 2.
Proof. rewrite cos_minus, cos_plus. lra. Qed.

(** The haversine term is a convex combination of two numbers of [0, 1]. *)
Lemma hav_a_bounds (lat1 lon1 lat2 lon2 : R) :
  0 <= hav_a lat1 lon1 lat2 lon2 <= 1.
Proof.
  unfold hav_a.
  rewrite !half_angle_sin, cos_product.
  pose proof (COS_bound (lat2 - lat1)) as [Hc1 Hc2].
  pose proof (COS_bound (lat2 + lat1)) as [Hd1 Hd2].
  pose proof (COS_bound (lon2 - lon1)) as [Hs1 Hs2].
  set (C := cos (lat2 - lat1)) in *.
  set (D := cos (lat2 + lat1)) in *.
  set (S := cos (lon2 - lon1)) in *.
  split; nra.
Qed.

Lemma hav_a_sym (lat1 lon1 lat2 lon2 : R) :
  hav_a lat1 lon1 lat2 lon2 = hav_a lat2 lon2 lat1 lon1.
Proof.
  unfold hav_a.
  rewrite !half_angle_sin.
  replace (lat1 - lat2) with (- (lat2 - lat1)) by lra.
  replace (lon1 - lon2) with (- (lon2 - lon1)) by lra.
  rewrite !cos_neg. lra.
Qed.

Lemma atan_nonneg (x : R) : 0 <= x -> 0 <= atan x.
Proof.
  intros [Hx | <-].
  - left. rewrite <- atan_0. now apply atan_increasing.
  - rewrite atan_0. lra.
Qed.

Lemma atan2_nonneg (y x : R) : 0 <= y -> 0 <= x -> 0 <= atan2 y x.
Proof.
  intros Hy Hx. unfold atan2.
  pose proof PI_RGT_0 as Hpi.
  destruct (Rlt_dec 0 x) as [Hpos | Hnpos].
  - apply atan_nonneg. apply Rmult_le_pos; [exact Hy |].
    left. now apply Rinv_0_lt_compat.
  - destruct (Rlt_dec x 0) as [Hneg | _]; [lra |].
    destruct (Rlt_dec 0 y) as [_ | _]; [lra |].
    destruct (Rlt_dec y 0) as [Hy' | _]; lra.
Qed.

Lemma math_sqrt_ok (x : R) : 0 <= x -> math_sqrt x = Ok (sqrt x).
Proof.
  intros Hx. unfold math_sqrt.
  destruct (Rlt_dec x 0) as [H | _]; [lra | reflexivity].
Qed.

(** Over exact reals the haversine term stays within [0, 1], so neither
    square root raises.  (In binary64 it can round above 1 for nearly
    antipodal points.  The statements rely on the geo-distance returning
    only between coincident points, where the term is exactly 0.) *)
Lemma haversine_rad_ok (lat1 lon1 lat2 lon2 : R) :
  haversine_rad lat1 lon1 lat2 lon2 =
  Ok (6371 * (2 * atan2 (sqrt (hav_a lat1 lon1 lat2 lon2))
                        (sqrt (1 - hav_a lat1 lon1 lat2 lon2)))).
Proof.
  unfold haversine_rad.
  pose proof (hav_a_bounds lat1 lon1 lat2 lon2) as [H0 H1].
  rewrite (math_sqrt_ok _ H0). simpl.
  rewrite math_sqrt_ok by lra. reflexivity.
Qed.

Lemma haversine_rad_nonneg (lat1 lon1 lat2 lon2 d : R) :
  haversine_rad lat1 lon1 lat2 lon2 = Ok d -> 0 <= d.
Proof.
  rewrite haversine_rad_ok. intros H. injection H as <-.
  pose proof (atan2_nonneg _ _ (sqrt_pos (hav_a lat1 lon1 lat2 lon2))
                (sqrt_pos (1 - hav_a lat1 lon1 lat2 lon2))).
  lra.
Qed.

Lemma haversine_rad_sym (lat1 lon1 lat2 lon2 : R) :
  haversine_rad lat1 lon1 lat2 lon2 = haversine_rad lat2 lon2 lat1 lon1.
Proof. unfold haversine_rad. now rewrite hav_a_sym. Qed.

(** On floats (no [None]) the primitive is symmetric, [nan] included. *)
Lemma haversine_distance_sym (lat1 lon1 lat2 lon2 : coord) :
  lat1 <> PyNone -> lon1 <> PyNone -> lat2 <> PyNone -> lon2 <> PyNone ->
  haversine_distance lat1 lon1 lat2 lon2 = haversine_distance lat2 lon2 lat1 lon1.
Proof.
  intros H1 H2 H3 H4. unfold haversine_distance.
  destruct lat1, lon1, lat2, lon2; try congruence; simpl; try reflexivity.
  now rewrite haversine_rad_sym.
Qed.

(** ** Composite distance *)

Lemma euclid_nonneg (n1 n2 : R3) : 0 <= euclid n1 n2.
Proof.
  destruct n1 as [[a1 a2] a3], n2 as [[b1 b2] b3]. simpl. apply sqrt_pos.
Qed.

Lemma euclid_sym (n1 n2 : R3) : euclid n1 n2 = euclid n2 n1.
Proof.
  destruct n1 as [[a1 a2] a3], n2 as [[b1 b2] b3]. unfold euclid.
  f_equal. ring.
Qed.

Lemma euclid_refl (n : R3) : euclid n n = 0.
Proof.
  destruct n as [[a1 a2] a3]. unfold euclid.
  replace ((a1 - a1) ^ 2 + (a2 - a2) ^ 2 + (a3 - a3) ^ 2) with 0 by ring.
  apply sqrt_0.
Qed.

Lemma temporal_distance_nonneg p f1 f2 : 0 <= temporal_distance p f1 f2.
Proof. apply euclid_nonneg. Qed.

Lemma temporal_distance_sym p f1 f2 :
  temporal_distance p f1 f2 = temporal_distance p f2 f1.
Proof. apply euclid_sym. Qed.

(** The query has no coordinates: the right operand of [or] is never
    evaluated, whatever the other tuple holds. *)
Lemma custom_distance_nan_left p f1 f2 :
  start_lat f1 = NaN ->
  custom_distance f1 f2 (Some p) = Ok (DFin (temporal_distance p f1 f2)).
Proof. intros H. unfold custom_distance. simpl. rewrite H. reflexivity. Qed.

Lemma custom_distance_nan_right p f1 f2 lat1 :
  start_lat f1 = Num lat1 -> start_lat f2 = NaN ->
  custom_distance f1 f2 (Some p) = Ok (DFin (temporal_distance p f1 f2)).
Proof.
  intros H1 H2. unfold custom_distance. simpl. rewrite H1, H2. reflexivity.
Qed.

Lemma custom_distance_both p f1 f2 lat1 lat2 :
  start_lat f1 = Num lat1 -> start_lat f2 = Num lat2 ->
  custom_distance f1 f2 (Some p) =
  rbind (haversine_distance (Num lat1) (start_lng f1) (Num lat2) (start_lng f2))
        (fun coord_dist => Ok (combine (temporal_distance p f1 f2) coord_dist)).
Proof.
  intros H1 H2. unfold custom_distance. simpl. rewrite H1, H2. reflexivity.
Qed.

(** [None] in the first tuple reaches [np.isnan] at once. *)
Lemma custom_distance_none_left p f1 f2 :
  start_lat f1 = PyNone -> custom_distance f1 f2 (Some p) = Raise TypeError.
Proof. intros H. unfold custom_distance. simpl. rewrite H. reflexivity. Qed.

(** [None] in the second tuple reaches [np.isnan] as soon as the first
    tuple has a latitude. *)
Lemma custom_distance_none_right p f1 f2 lat1 :
  start_lat f1 = Num lat1 -> start_lat f2 = PyNone ->
  custom_distance f1 f2 (Some p) = Raise TypeError.
Proof.
  intros H1 H2. unfold custom_distance. simpl. rewrite H1, H2. reflexivity.
Qed.

Lemma custom_distance_unfitted f1 f2 :
  custom_distance f1 f2 None = Raise NotFittedError.
Proof. reflexivity. Qed.

(** Whenever a finite distance comes out, it is not negative. *)
Lemma custom_distance_nonneg f1 f2 sc d :
  custom_distance f1 f2 sc = Ok (DFin d) -> 0 <= d.
Proof.
  destruct sc as [p|]; [| discriminate].
  destruct (start_lat f1) as [| | lat1] eqn:E1.
  - rewrite custom_distance_none_left by assumption. discriminate.
  - rewrite custom_distance_nan_left by assumption.
    intros H. injection H as <-. apply temporal_distance_nonneg.
  - destruct (start_lat f2) as [| | lat2] eqn:E2.
    + rewrite (custom_distance_none_right p f1 f2 lat1) by assumption.
      discriminate.
    + rewrite (custom_distance_nan_right p f1 f2 lat1) by assumption.
      intros H. injection H as <-. apply temporal_distance_nonneg.
    + rewrite (custom_distance_both p f1 f2 lat1 lat2) by assumption.
      intros H. apply rbind_ok in H as (cd & Hh & Hc).
      destruct cd as [c | |]; simpl in Hc; try discriminate.
      injection Hc as <-.
      pose proof (temporal_distance_nonneg p f1 f2) as Ht.
      assert (0 <= c).
      { unfold haversine_distance in Hh.
        destruct (start_lng f1) as [| | g1]; simpl in Hh; try discriminate;
        destruct (start_lng f2) as [| | g2]; simpl in Hh; try discriminate.
        apply rbind_ok in Hh as (d' & Hr & Hd). injection Hd as <-.
        eapply haversine_rad_nonneg; eassumption. }
      lra.
Qed.

(** X13: the composite distance on tuples whose missing coordinates are
    [nan].  When both have coordinates, it is the outcome of the
    geo-distance, blended with the temporal term if that outcome is a
    number and passed on if it is an exception; when either lacks them, it
    is the temporal term alone; and a number it returns is never
    negative. *)
Lemma custom_distance_spec (p : scaler_params) (f1 f2 : features) :
  has_coords f1 \/ lacks_coords f1 ->
  has_coords f2 \/ lacks_coords f2 ->
  (has_coords f1 -> has_coords f2 ->
   custom_distance f1 f2 (Some p)
   = (coord_dist <- haversine_distance (start_lat f1) (start_lng f1)
                                       (start_lat f2) (start_lng f2) ;;
      Ok (combine (temporal_distance p f1 f2) coord_dist))%result /\
   forall km,
     haversine_distance (start_lat f1) (start_lng f1)
                        (start_lat f2) (start_lng f2) = Ok (DFin km) ->
     0 <= km /\
     custom_distance f1 f2 (Some p)
     = Ok (DFin (0.5 * temporal_distance p f1 f2 + 0.5 * (km / 10)))) /\
  (lacks_coords f1 \/ lacks_coords f2 ->
   custom_distance f1 f2 (Some p) = Ok (DFin (temporal_distance p f1 f2))) /\
  (forall d, custom_distance f1 f2 (Some p) = Ok (DFin d) -> 0 <= d).
Proof.
  intros J1 J2. split; [| split].
  - intros (lat1 & lng1 & E1 & G1) (lat2 & lng2 & E2 & G2).
    pose proof (custom_distance_both p f1 f2 lat1 lat2 E1 E2) as Hcd.
    rewrite <- E1, <- E2 in Hcd.
    split; [exact Hcd |].
    intros km Hkm. split.
    + rewrite E1, G1, E2, G2 in Hkm. unfold haversine_distance in Hkm.
      cbn [radians rbind] in Hkm. apply rbind_ok in Hkm as (d' & Hr & Hd).
      injection Hd as <-. eapply haversine_rad_nonneg; eassumption.
    + rewrite Hcd, Hkm. reflexivity.
  - intros [[E1 _] | [E2 _]].
    + now apply custom_distance_nan_left.
    + destruct J1 as [(lat1 & _ & E1 & _) | [E1 _]].
      * now apply (custom_distance_nan_right p f1 f2 lat1).
      * now apply custom_distance_nan_left.
  - intros d. apply custom_distance_nonneg.
Qed.

(** X14: on tuples that hold floats only, the order of the arguments does
    not matter. *)
Lemma custom_distance_sym_floats (f1 f2 : features) (sc : StandardScaler) :
  start_lat f1 <> PyNone -> start_lng f1 <> PyNone ->
  start_lat f2 <> PyNone -> start_lng f2 <> PyNone ->
  custom_distance f1 f2 sc = custom_distance f2 f1 sc.
Proof.
  intros N1 G1 N2 G2.
  destruct sc as [p |]; [| reflexivity].
  destruct (start_lat f1) as [| | lat1] eqn:E1; [congruence | |];
    destruct (start_lat f2) as [| | lat2] eqn:E2; try congruence.
  - rewrite !custom_distance_nan_left by assumption.
    now rewrite temporal_distance_sym.
  - rewrite custom_distance_nan_left by assumption.
    rewrite (custom_distance_nan_right p f2 f1 lat2) by assumption.
    now rewrite temporal_distance_sym.
  - rewrite (custom_distance_nan_right p f1 f2 lat1) by assumption.
    rewrite custom_distance_nan_left by assumption.
    now rewrite temporal_distance_sym.
  - rewrite (custom_distance_both p f1 f2 lat1 lat2) by assumption.
    rewrite (custom_distance_both p f2 f1 lat2 lat1) by assumption.
    rewrite (haversine_distance_sym (Num lat1) (start_lng f1)
               (Num lat2) (start_lng f2)) by (assumption || discriminate).
    now rewrite temporal_distance_sym.
Qed.

(** ** The nearest-centroid search *)

Lemma dist_lt_fin_inv (x : dist) (m : R) :
  dist_lt x (DFin m) = true -> exists d, x = DFin d /\ d < m.
Proof.
  destruct x as [d| |]; simpl; try discriminate.
  destruct (Rlt_dec d m); [| discriminate]. intros _. now exists d.
Qed.

Lemma dist_lt_inf_inv (x : dist) :
  dist_lt x DInf = true -> exists d, x = DFin d.
Proof. destruct x as [d| |]; simpl; try discriminate. now exists d. Qed.

Lemma dist_lt_fin (a b : R) : a < b -> dist_lt (DFin a) (DFin b) = true.
Proof. intros H. simpl. destruct (Rlt_dec a b); [reflexivity | lra]. Qed.

Lemma dist_lt_irrefl_le (a b : R) : b <= a -> dist_lt (DFin a) (DFin b) = false.
Proof. intros H. simpl. destruct (Rlt_dec a b); [lra | reflexivity]. Qed.

Lemma nearest_app fv sc (l1 l2 : dict centroid) acc :
  nearest fv sc (l1 ++ l2) acc = rbind (nearest fv sc l1 acc) (nearest fv sc l2).
Proof.
  revert acc. induction l1 as [| [e c] l1 IH]; intros acc; simpl.
  - reflexivity.
  - destruct (custom_distance fv (centroid_vector c) sc) as [d|ex]; simpl.
    + destruct (dist_lt d (fst acc)); apply IH.
    + reflexivity.
Qed.

Lemma nearest_search_state fv sc all items acc res :
  incl items all ->
  search_state fv sc all acc ->
  nearest fv sc items acc = Ok res ->
  search_state fv sc all res.
Proof.
  revert acc. induction items as [| [e c] items IH]; intros acc Hincl Hacc H.
  - simpl in H. injection H as <-. exact Hacc.
  - simpl in H. apply rbind_ok in H as (d & Hd & H).
    assert (Hincl' : incl items all)
      by (intros x Hx; apply Hincl; now right).
    destruct (dist_lt d (fst acc)) eqn:Hlt.
    + eapply IH; [exact Hincl' | | exact H].
      right. exists e, c.
      assert (exists r, d = DFin r) as [r ->].
      { destruct Hacc as [-> | (e0 & c0 & d0 & _ & _ & ->)]; simpl in Hlt.
        - now apply dist_lt_inf_inv.
        - apply dist_lt_fin_inv in Hlt as (r & -> & _). now exists r. }
      exists r. repeat split; [apply Hincl; now left | exact Hd].
    + eapply IH; eassumption.
Qed.

(** Centroids that do not beat the current minimum leave the locals alone. *)
Lemma nearest_no_better fv sc items acc :
  Forall (fun ec => exists x,
            custom_distance fv (centroid_vector (snd ec)) sc = Ok x /\
            dist_lt x (fst acc) = false) items ->
  nearest fv sc items acc = Ok acc.
Proof.
  induction 1 as [| [e c] items (x & Hx & Hlt) _ IH]; simpl.
  - reflexivity.
  - simpl in Hx. rewrite Hx. simpl. rewrite Hlt. exact IH.
Qed.

(** Centroids all strictly farther than [d] (or at a [nan] distance) leave
    in the locals either the initial [inf] or a distance above [d]. *)
Lemma nearest_all_farther fv sc items d :
  Forall (fun ec => exists x,
            custom_distance fv (centroid_vector (snd ec)) sc = Ok x /\
            dist_le x (DFin d) = false) items ->
  forall acc, dist_lt (DFin d) (fst acc) = true ->
  exists res, nearest fv sc items acc = Ok res /\
              dist_lt (DFin d) (fst res) = true.
Proof.
  induction 1 as [| [e c] items (x & Hx & Hle) _ IH]; intros acc Hacc; simpl.
  - now exists acc.
  - simpl in Hx. rewrite Hx. simpl.
    destruct (dist_lt x (fst acc)) eqn:Hlt.
    + apply IH. simpl.
      destruct x as [r| |]; simpl in *; try discriminate.
      destruct (Rle_dec r d); [discriminate |].
      destruct (Rlt_dec d r); [reflexivity | lra].
    + now apply IH.
Qed.

(** First-minimiser rule: the first centroid at the least distance wins,
    and later centroids at the same distance do not replace it. *)
Lemma nearest_first_min fv sc (before after : dict centroid) e c d :
  Forall (fun ec => exists x,
            custom_distance fv (centroid_vector (snd ec)) sc = Ok x /\
            dist_le x (DFin d) = false) before ->
  custom_distance fv (centroid_vector c) sc = Ok (DFin d) ->
  Forall (fun ec => exists x,
            custom_distance fv (centroid_vector (snd ec)) sc = Ok x /\
            dist_lt x (DFin d) = false) after ->
  nearest fv sc (before ++ (e, c) :: after) (DInf, None) = Ok (DFin d, Some e).
Proof.
  intros Hb Hc Ha.
  rewrite nearest_app.
  destruct (nearest_all_farther fv sc before d Hb (DInf, None) eq_refl)
    as (res & -> & Hres).
  cbn [rbind nearest]. rewrite Hc. cbn [rbind]. rewrite Hres.
  now apply nearest_no_better.
Qed.

(** ** Methods and the object *)

Lemma predict_run (q : features) (self : EventSimilarityPredictor) :
  predict q self =
  (rbind (nearest q (scaler self) (centroids self) (DInf, None))
         (fun found => Ok (gate (fst found) (snd found) (distance_threshold self))),
   self).
Proof.
  unfold predict, mbind, get, lift, mret. simpl.
  destruct (nearest q (scaler self) (centroids self) (DInf, None)); reflexivity.
Qed.

Lemma predict_eval (q : features) (self : EventSimilarityPredictor) :
  eval (predict q) self =
  rbind (nearest q (scaler self) (centroids self) (DInf, None))
        (fun found => Ok (gate (fst found) (snd found) (distance_threshold self))).
Proof. unfold eval. now rewrite predict_run. Qed.

Lemma predict_exec (q : features) (self : EventSimilarityPredictor) :
  exec (predict q) self = self.
Proof. unfold exec. now rewrite predict_run. Qed.

Lemma predict_batch_exec (df : DataFrame) (self : EventSimilarityPredictor) :
  exec (predict_batch df) self = self.
Proof.
  unfold exec. induction df as [| r rest IH]; simpl.
  - reflexivity.
  - unfold mbind. rewrite predict_run. simpl.
    destruct (rbind _ _) as [p|ex]; simpl; [| reflexivity].
    destruct (predict_batch rest self) as [[ps|ex] self'] eqn:E;
      simpl in *; exact IH.
Qed.

(** An admitted prediction carries the centroid's own finite distance. *)
Lemma predict_admitted (q : features) (self : EventSimilarityPredictor)
    (e : string) (d : dist) (conf : R) :
  eval (predict q) self = Ok (Some e, d, conf) ->
  exists c r,
    In (e, c) (centroids self) /\
    centroid_distance self q c = Ok (DFin r) /\
    d = DFin r /\ r <= distance_threshold self /\
    conf = 1 - r / distance_threshold self.
Proof.
  rewrite predict_eval. intros H.
  apply rbind_ok in H as ([m n] & Hn & Hg). simpl in Hg.
  pose proof (nearest_search_state q (scaler self) (centroids self)
                (centroids self) (DInf, None) (m, n)
                (incl_refl _) (or_introl eq_refl) Hn) as Hs.
  destruct Hs as [Hs | (e0 & c0 & d0 & Hin & Hd & Hs)];
    injection Hs as -> ->; simpl in Hg.
  - discriminate.
  - unfold gate in Hg.
    destruct (Rle_dec d0 (distance_threshold self)) as [Hle | Hgt];
      [| discriminate].
    injection Hg as <- <- <-.
    exists c0, d0. repeat split; assumption.
Qed.

(** The whole of [predict] when the first centroid at the least distance is
    known: it is selected, and the threshold decides whether it is
    returned. *)
Lemma predict_first_min (self : EventSimilarityPredictor) (q : features)
    (before after : dict centroid) (e : string) (c : centroid) (d : R) :
  centroids self = before ++ (e, c) :: after ->
  Forall (fun ec => exists x, centroid_distance self q (snd ec) = Ok x /\
                              dist_le x (DFin d) = false) before ->
  centroid_distance self q c = Ok (DFin d) ->
  Forall (fun ec => exists x, centroid_distance self q (snd ec) = Ok x /\
                              dist_lt x (DFin d) = false) after ->
  eval (predict q) self = Ok (gate (DFin d) (Some e) (distance_threshold self)).
Proof.
  intros Hcs Hb Hc Ha. rewrite predict_eval, Hcs.
  unfold centroid_distance in *.
  now rewrite (nearest_first_min q (scaler self) before after e c d Hb Hc Ha).
Qed.

(** Among finitely distant centroids there is a first nearest one. *)
Lemma first_min_exists fv sc (items : dict centroid) :
  items <> [] ->
  Forall (fun ec => exists d,
            custom_distance fv (centroid_vector (snd ec)) sc = Ok (DFin d)) items ->
  exists before e c after d,
    items = before ++ (e, c) :: after /\
    Forall (fun ec => exists x,
              custom_distance fv (centroid_vector (snd ec)) sc = Ok x /\
              dist_le x (DFin d) = false) before /\
    custom_distance fv (centroid_vector c) sc = Ok (DFin d) /\
    Forall (fun ec => exists x,
              custom_distance fv (centroid_vector (snd ec)) sc = Ok x /\
              dist_lt x (DFin d) = false) after.
Proof.
  induction items as [| [e0 c0] rest IH]; intros Hne Hall; [congruence |].
  inversion Hall as [| ? ? (d0 & Hd0) Hrest]; subst. simpl in Hd0.
  destruct rest as [| y rest'].
  - exists [], e0, c0, [], d0. repeat split; [constructor | exact Hd0 | constructor].
  - destruct (IH ltac:(discriminate) Hrest)
      as (before & e & c & after & d & Heq & Hb & Hc & Ha).
    destruct (Rle_dec d0 d) as [Hle | Hgt].
    + exists [], e0, c0, (y :: rest'), d0.
      split; [reflexivity |]. split; [constructor |]. split; [exact Hd0 |].
      rewrite Heq. apply Forall_app. split; [| constructor].
      * eapply Forall_impl; [| exact Hb].
        intros ec (x & Hx & Hxle). exists x. split; [exact Hx |].
        destruct x as [r | |]; simpl in *; try reflexivity.
        destruct (Rle_dec r d); [discriminate |].
        destruct (Rlt_dec r d0); [lra | reflexivity].
      * exists (DFin d). split; [exact Hc |]. now apply dist_lt_irrefl_le.
      * eapply Forall_impl; [| exact Ha].
        intros ec (x & Hx & Hxlt). exists x. split; [exact Hx |].
        destruct x as [r | |]; simpl in *; try reflexivity.
        destruct (Rlt_dec r d); [discriminate |].
        destruct (Rlt_dec r d0); [lra | reflexivity].
    + exists ((e0, c0) :: before), e, c, after, d.
      split; [rewrite Heq; reflexivity |].
      split; [| split; assumption].
      constructor; [| exact Hb].
      exists (DFin d0). split; [exact Hd0 |]. simpl.
      destruct (Rle_dec d0 d); [contradiction | reflexivity].
Qed.

(** X15: what [predict] returns when every centroid is at a finite
    distance from the query: the nearest centroid, gated by the threshold. *)
Lemma predict_returns_nearest (self : EventSimilarityPredictor) (q : features) :
  centroids self <> [] ->
  Forall (fun ec => exists d, centroid_distance self q (snd ec) = Ok (DFin d))
         (centroids self) ->
  exists e c d,
    In (e, c) (centroids self) /\
    centroid_distance self q c = Ok (DFin d) /\
    (forall e' c' d',
       In (e', c') (centroids self) ->
       centroid_distance self q c' = Ok (DFin d') -> d <= d') /\
    (d <= distance_threshold self ->
     eval (predict q) self = Ok (Some e, DFin d, 1 - d / distance_threshold self)) /\
    (distance_threshold self < d ->
     eval (predict q) self = Ok (None, DFin d, 0)).
Proof.
  intros Hne Hall.
  destruct (first_min_exists q (scaler self) (centroids self) Hne Hall)
    as (before & e & c & after & d & Heq & Hb & Hc & Ha).
  exists e, c, d.
  split; [rewrite Heq; apply in_or_app; right; now left |].
  split; [exact Hc |]. split.
  - intros e' c' d' Hin Hd'. rewrite Heq in Hin.
    apply in_app_or in Hin as [Hin | [Hin | Hin]].
    + rewrite Forall_forall in Hb. destruct (Hb _ Hin) as (x & Hx & Hle).
      simpl in Hx. unfold centroid_distance in Hd'. rewrite Hx in Hd'.
      injection Hd' as ->. simpl in Hle.
      destruct (Rle_dec d' d); [discriminate | lra].
    + injection Hin as <- <-. unfold centroid_distance in Hd'.
      rewrite Hc in Hd'. injection Hd' as ->. lra.
    + rewrite Forall_forall in Ha. destruct (Ha _ Hin) as (x & Hx & Hlt).
      simpl in Hx. unfold centroid_distance in Hd'. rewrite Hx in Hd'.
      injection Hd' as ->. simpl in Hlt.
      destruct (Rlt_dec d' d); [discriminate | lra].
  - rewrite (predict_first_min self q before after e c d Heq Hb Hc Ha).
    unfold gate.
    destruct (Rle_dec d (distance_threshold self)); split; intros H;
      try reflexivity; lra.
Qed.

(** ** Centroid builder *)

Lemma first_seen_in (l seen : list string) (x : string) :
  In x (first_seen seen l) <-> In x l /\ ~ In x seen.
Proof.
  revert seen. induction l as [| y t IH]; intros seen; simpl.
  - tauto.
  - destruct (in_dec string_dec y seen) as [Hy | Hy].
    + rewrite IH. split.
      * intros [H1 H2]. tauto.
      * intros [[-> | H1] H2]; [contradiction | tauto].
    + simpl. rewrite IH. simpl. split.
      * intros [-> | [H1 H2]]; [tauto |]. split; [tauto |].
        intros H. apply H2. now right.
      * intros [[-> | H1] H2]; [now left |].
        destruct (string_dec y x) as [-> | Hne]; [now left |].
        right. split; [exact H1 |]. intros [H | H]; contradiction.
Qed.

Lemma insert_desc_in (x y : string * nat) (l : list (string * nat)) :
  In y (insert_desc x l) <-> y = x \/ In y l.
Proof.
  induction l as [| z t IH]; simpl.
  - intuition congruence.
  - destruct (snd z <=? snd x)%nat; simpl.
    + intuition congruence.
    + rewrite IH. intuition congruence.
Qed.

Lemma sort_desc_in (y : string * nat) (l : list (string * nat)) :
  In y (sort_desc l) <-> In y l.
Proof.
  induction l as [| x t IH]; simpl.
  - tauto.
  - rewrite insert_desc_in, IH. intuition congruence.
Qed.

Lemma count_event_pos (df : DataFrame) (e : string) :
  (0 < count_event e df)%nat -> In e (map event_name df).
Proof.
  unfold count_event. induction df as [| r t IH]; simpl; [lia |].
  destruct (String.eqb (event_name r) e) eqn:E.
  - intros _. left. now apply String.eqb_eq.
  - intros H. right. now apply IH.
Qed.

(** [value_counts] lists exactly the labels of the table, each with its
    number of rows. *)
Lemma value_counts_in (df : DataFrame) (e : string) (n : nat) :
  In (e, n) (value_counts df) <->
  In e (map event_name df) /\ n = count_event e df.
Proof.
  unfold value_counts. rewrite sort_desc_in, in_map_iff. split.
  - intros (e' & Heq & Hin). injection Heq as -> <-.
    apply first_seen_in in Hin. tauto.
  - intros [Hin ->]. exists e. split; [reflexivity |].
    apply first_seen_in. split; [exact Hin | intros []].
Qed.

Lemma well_defined_events_in (df : DataFrame) (m : Z) (e : string) :
  In e (well_defined_events df m) <->
  In e (map event_name df) /\ (m <= Z.of_nat (count_event e df))%Z.
Proof.
  unfold well_defined_events. rewrite in_map_iff. split.
  - intros ([e' n] & Heq & Hin). simpl in Heq. subst e'.
    apply filter_In in Hin as [Hin Hm]. simpl in Hm.
    apply value_counts_in in Hin as [Hin ->].
    split; [exact Hin | now apply Z.leb_le].
  - intros [Hin Hm]. exists (e, count_event e df). split; [reflexivity |].
    apply filter_In. split.
    + now apply value_counts_in.
    + simpl. now apply Z.leb_le.
Qed.

Lemma dict_set_keys {V} (d : dict V) (k : string) (v : V) (x : string) :
  In x (keys (dict_set d k v)) <-> x = k \/ In x (keys d).
Proof.
  unfold keys. induction d as [| [k' v'] rest IH]; simpl.
  - intuition congruence.
  - destruct (String.eqb k' k) eqn:E; simpl.
    + apply String.eqb_eq in E. subst k'. intuition congruence.
    + rewrite IH. intuition congruence.
Qed.

Lemma dict_set_in {V} (d : dict V) (k : string) (v : V) (x : string) (w : V) :
  In (x, w) (dict_set d k v) -> (x = k /\ w = v) \/ In (x, w) d.
Proof.
  induction d as [| [k' v'] rest IH]; simpl.
  - intros [H | []]. injection H as <- <-. now left.
  - destruct (String.eqb k' k) eqn:E; simpl.
    + intros [H | H]; [injection H as <- <-; now left | right; now right].
    + intros [H | H]; [right; now left |].
      apply IH in H as [H | H]; [now left | right; now right].
Qed.

(** A dictionary filled key by key with [f key]. *)
Lemma build_keys {V} (f : string -> V) (l : list string) (d : dict V)
    (x : string) :
  In x (keys (fold_left (fun acc k => dict_set acc k (f k)) l d)) <->
  In x (keys d) \/ In x l.
Proof.
  revert d. induction l as [| k t IH]; intros d; simpl.
  - tauto.
  - rewrite IH, dict_set_keys. intuition congruence.
Qed.

Lemma build_values {V} (f : string -> V) (l : list string) (d : dict V)
    (x : string) (w : V) :
  In (x, w) (fold_left (fun acc k => dict_set acc k (f k)) l d) ->
  In (x, w) d \/ (In x l /\ w = f x).
Proof.
  revert d. induction l as [| k t IH]; intros d; simpl.
  - tauto.
  - intros H. apply IH in H as [H | [H ->]].
    + apply dict_set_in in H as [[-> ->] | H]; [right | left]; tauto.
    + right. tauto.
Qed.

Lemma compute_event_centroids_keys (df : DataFrame) (m : Z) (e : string) :
  In e (keys (compute_event_centroids df m)) <-> In e (well_defined_events df m).
Proof.
  unfold compute_event_centroids.
  rewrite (build_keys (fun ev => make_centroid (event_rows df ev))).
  simpl. tauto.
Qed.

Lemma compute_event_centroids_values (df : DataFrame) (m : Z) e c :
  In (e, c) (compute_event_centroids df m) ->
  In e (well_defined_events df m) /\ c = make_centroid (event_rows df e).
Proof.
  unfold compute_event_centroids. intros H.
  apply (build_values (fun ev => make_centroid (event_rows df ev))) in H.
  destruct H as [[] | H]. exact H.
Qed.

Lemma forallb_isna_Forall (col : list coord) :
  forallb isna col = true <-> Forall (fun x => isna x = true) col.
Proof.
  rewrite forallb_forall, Forall_forall. tauto.
Qed.

Lemma present_nil_iff (col : list coord) :
  present col = [] <-> Forall (fun x => isna x = true) col.
Proof.
  induction col as [| x t IH]; simpl.
  - split; [constructor | reflexivity].
  - destruct x as [| | r]; simpl.
    + rewrite IH. split; [now constructor | now inversion 1].
    + rewrite IH. split; [now constructor | now inversion 1].
    + split; [discriminate | inversion 1; discriminate].
Qed.

Lemma spatial_mean_none (col : list coord) :
  spatial_mean col = PyNone <-> Forall (fun x => isna x = true) col.
Proof.
  unfold spatial_mean. rewrite <- forallb_isna_Forall.
  destruct (forallb isna col) eqn:E; simpl.
  - tauto.
  - split; [| discriminate]. unfold mean_skipna.
    destruct (present col); discriminate.
Qed.

Lemma spatial_mean_some (col : list coord) :
  ~ Forall (fun x => isna x = true) col ->
  spatial_mean col = Num (Rsum (present col) / INR (List.length (present col))).
Proof.
  intros H. unfold spatial_mean.
  destruct (forallb isna col) eqn:E.
  - exfalso. apply H. now apply forallb_isna_Forall.
  - simpl. unfold mean_skipna.
    destruct (present col) eqn:P.
    + exfalso. apply H. now apply present_nil_iff.
    + reflexivity.
Qed.

(** The builder's selection of an event's rows followed by pandas' skipping
    of missing values leaves the numbers recorded for the event. *)
Lemma present_event_rows (column : features -> coord) (df : DataFrame)
    (e : string) :
  present (map (fun r => column (feat r)) (event_rows df e))
  = recorded column e df.
Proof.
  unfold event_rows. induction df as [| r rest IH]; [reflexivity |].
  cbn [filter recorded].
  destruct (String.eqb_spec (event_name r) e) as [Heq | Hne];
    destruct (string_dec (event_name r) e) as [Heq' | Hne']; try contradiction.
  - cbn [map present]. destruct (column (feat r)); now rewrite IH.
  - exact IH.
Qed.

Lemma event_rows_all_missing (column : features -> coord) (df : DataFrame)
    (e : string) :
  Forall (fun x => isna x = true)
         (map (fun r => column (feat r)) (event_rows df e)) <->
  (forall r, In r df -> event_name r = e -> isna (column (feat r)) = true).
Proof.
  rewrite Forall_map, Forall_forall. unfold event_rows.
  split.
  - intros H r Hin He. apply H. apply filter_In. split; [exact Hin |].
    now apply String.eqb_eq.
  - intros H r Hr. apply filter_In in Hr as [Hin He].
    apply H; [exact Hin | now apply String.eqb_eq].
Qed.

(** ** Fitting *)

Lemma fit_run (df : DataFrame) (self : EventSimilarityPredictor) :
  exec (fit df) self =
  {| centroids := compute_event_centroids df MIN_SAMPLES_PER_EVENT;
     scaler := match StandardScaler_fit (map (fun r => temporal (feat r)) df) with
               | Ok p => Some p
               | Raise _ => None
               end;
     distance_threshold := distance_threshold self |}.
Proof.
  unfold exec, fit, mbind, set_centroids, lift, set_scaler. simpl.
  destruct (StandardScaler_fit _); reflexivity.
Qed.

Lemma fitted_centroids df t :
  centroids (fitted df t) = compute_event_centroids df MIN_SAMPLES_PER_EVENT.
Proof. unfold fitted. now rewrite fit_run. Qed.

Lemma fitted_scaler df t1 t2 : scaler (fitted df t1) = scaler (fitted df t2).
Proof. unfold fitted. now rewrite !fit_run. Qed.

Lemma fitted_threshold df t : distance_threshold (fitted df t) = t.
Proof. unfold fitted. now rewrite fit_run. Qed.

(** ** A constant column *)

Lemma Rsum_repeat (c : R) (k : nat) : Rsum (repeat c k) = INR k * c.
Proof.
  induction k as [| k IH].
  - simpl. lra.
  - change (Rsum (repeat c (S k))) with (c + Rsum (repeat c k)).
    rewrite IH, S_INR. lra.
Qed.

Lemma mean_repeat (c : R) (n : nat) : mean (repeat c (S n)) = c.
Proof.
  unfold mean. rewrite Rsum_repeat, repeat_length.
  field. apply not_0_INR. discriminate.
Qed.

Lemma var_repeat (c : R) (n : nat) : var (repeat c (S n)) = 0.
Proof.
  unfold var. rewrite mean_repeat.
  assert (H : forall k, map (fun x => (x - c) ^ 2) (repeat c k) = repeat 0 k).
  { induction k as [| k IH]; cbn [map repeat]; [reflexivity |].
    rewrite IH. f_equal. ring. }
  rewrite H, Rsum_repeat. unfold Rdiv. ring.
Qed.

(** A column without variance gets the scale 1, not 0. *)
Lemma column_scale_repeat (c : R) (n : nat) : column_scale (repeat c (S n)) = 1.
Proof.
  unfold column_scale. rewrite var_repeat, sqrt_0.
  unfold handle_zeros_in_scale.
  destruct (Req_dec_T 0 0) as [_ | H]; [reflexivity | contradiction].
Qed.

(** ** The twin events *)

Lemma twins_state (t : R) :
  fitted train_twins t =
  {| centroids := [("A"%string, twin_centroid); ("B"%string, twin_centroid)];
     scaler := Some twin_scaler;
     distance_threshold := t |}.
Proof. unfold fitted. rewrite fit_run. reflexivity. Qed.

Lemma twin_normalize (a b c : R) :
  normalize twin_scaler (a, b, c) = (a - 100, b - 10, c - 7).
Proof.
  unfold normalize, twin_scaler. cbn [mean_ scale_].
  rewrite !mean_repeat, !column_scale_repeat. f_equal; [f_equal |]; field.
Qed.

Lemma twin_temporal : temporal (centroid_vector twin_centroid) = (100, 10, 7).
Proof.
  change (temporal (centroid_vector twin_centroid))
    with (mean (repeat 100 3), mean (repeat 10 3), mean (repeat 7 3)).
  now rewrite !mean_repeat.
Qed.

Lemma twin_distance_on (t : R) :
  centroid_distance (fitted train_twins t) query_on_twins twin_centroid
  = Ok (DFin 0).
Proof.
  unfold centroid_distance. rewrite twins_state. cbn [scaler].
  rewrite custom_distance_nan_left by reflexivity.
  unfold temporal_distance. rewrite twin_temporal.
  change (temporal query_on_twins) with (100, 10, 7).
  now rewrite euclid_refl.
Qed.

Lemma twins_predict_on (t : R) :
  0 <= t ->
  eval (predict query_on_twins) (fitted train_twins t)
  = Ok (Some "A"%string, DFin 0, 1 - 0 / t).
Proof.
  intros Ht.
  rewrite (predict_first_min (fitted train_twins t) query_on_twins
             [] [("B"%string, twin_centroid)] "A"%string twin_centroid 0).
  - unfold gate. rewrite fitted_threshold.
    destruct (Rle_dec 0 t) as [_ | H]; [reflexivity | contradiction].
  - now rewrite twins_state.
  - constructor.
  - apply twin_distance_on.
  - constructor; [| constructor].
    exists (DFin 0). split; [apply twin_distance_on |].
    apply dist_lt_irrefl_le. lra.
Qed.

(** ** The flat event *)

(** What [fit] leaves on [train_flat]: one centroid at [(100, 10, 0)]
    without coordinates, the column means [(100, 10, 0)] and, the columns
    being constant, the scales [(1, 1, 1)]. *)
Lemma flat_state (t : R) :
  exists c p,
    fitted train_flat t
    = {| centroids := [("A"%string, c)]; scaler := Some p;
         distance_threshold := t |} /\
    temporal (centroid_vector c) = (100, 10, 0) /\
    c_start_lat c = PyNone /\ c_start_lng c = PyNone /\
    mean_ p = (100, 10, 0) /\ scale_ p = (1, 1, 1).
Proof.
  unfold fitted. rewrite fit_run.
  exists (make_centroid (event_rows train_flat "A"%string)).
  exists {| mean_ := (mean (repeat 100 3), mean (repeat 10 3),
                      mean (repeat 0 3));
            scale_ := (column_scale (repeat 100 3), column_scale (repeat 10 3),
                       column_scale (repeat 0 3)) |}.
  split; [reflexivity |].
  split.
  - change (temporal (centroid_vector
                        (make_centroid (event_rows train_flat "A"%string))))
      with (mean (repeat 100 3), mean (repeat 10 3), mean (repeat 0 3)).
    now rewrite !mean_repeat.
  - split; [reflexivity |]. split; [reflexivity |].
    cbn [mean_ scale_].
    now rewrite !mean_repeat, !column_scale_repeat.
Qed.

(** ** Two thresholds over one fitted state *)

Section Thresholds.
Variables p1 p2 : EventSimilarityPredictor.
Hypothesis same_centroids : centroids p1 = centroids p2.
Hypothesis same_scaler : scaler p1 = scaler p2.
Hypothesis thresholds_le : distance_threshold p1 <= distance_threshold p2.

Lemma predict_match_kept (q : features) (e : string) (d : dist) (conf : R) :
  eval (predict q) p1 = Ok (Some e, d, conf) ->
  exists conf', eval (predict q) p2 = Ok (Some e, d, conf').
Proof.
  rewrite !predict_eval, <- same_centroids, <- same_scaler.
  destruct (nearest q (scaler p1) (centroids p1) (DInf, None))
    as [[m n] | ex]; simpl; [| discriminate].
  unfold gate. destruct m as [r | |]; try discriminate.
  destruct (Rle_dec r (distance_threshold p1)) as [H1 | H1]; [| discriminate].
  intros H. injection H as -> <- <-.
  destruct (Rle_dec r (distance_threshold p2)) as [H2 | H2]; [| lra].
  eexists. reflexivity.
Qed.

Lemma predict_rejection_kept (q : features) (d : dist) (conf : R) :
  eval (predict q) p2 = Ok (None, d, conf) ->
  eval (predict q) p1 = Ok (None, d, 0).
Proof.
  rewrite !predict_eval, <- same_centroids, <- same_scaler.
  destruct (nearest q (scaler p1) (centroids p1) (DInf, None))
    as [[m n] | ex] eqn:Hn; simpl; [| discriminate].
  pose proof (nearest_search_state q (scaler p1) (centroids p1)
                (centroids p1) (DInf, None) (m, n)
                (incl_refl _) (or_introl eq_refl) Hn) as Hs.
  destruct Hs as [Hs | (e0 & c0 & d0 & _ & _ & Hs)]; injection Hs as -> ->;
    unfold gate.
  - intros H. injection H as <- _. reflexivity.
  - destruct (Rle_dec d0 (distance_threshold p2)) as [H2 | H2]; [discriminate |].
    intros H. injection H as <- _.
    destruct (Rle_dec d0 (distance_threshold p1)) as [H1 | H1]; [lra | reflexivity].
Qed.

Lemma predict_no_new_error (q : features) (x : prediction) :
  eval (predict q) p1 = Ok x -> exists y, eval (predict q) p2 = Ok y.
Proof.
  rewrite !predict_eval, <- same_centroids, <- same_scaler.
  destruct (nearest q (scaler p1) (centroids p1) (DInf, None))
    as [found | ex]; simpl; [| discriminate].
  intros _. eexists. reflexivity.
Qed.

End Thresholds.

Lemma predict_batch_cons (r : row) (rest : DataFrame)
    (self : EventSimilarityPredictor) :
  eval (predict_batch (r :: rest)) self =
  rbind (eval (predict (feat r)) self)
    (fun p => rbind (eval (predict_batch rest) self)
       (fun predictions =>
          Ok ({| predicted_event := fst (fst p);
                 distance := snd (fst p);
                 confidence := snd p;
                 actual_event := event_name r |} :: predictions))).
Proof.
  unfold eval. cbn [predict_batch]. unfold mbind.
  rewrite predict_run. cbn [fst].
  destruct (rbind _ _) as [p | ex]; cbn [rbind fst]; [| reflexivity].
  pose proof (predict_batch_exec rest self) as Hx. unfold exec in Hx.
  destruct (predict_batch rest self) as [[ps | ex] self']; reflexivity.
Qed.

Lemma predict_batch_agree (p1 p2 : EventSimilarityPredictor) (df : DataFrame) :
  centroids p1 = centroids p2 ->
  scaler p1 = scaler p2 ->
  distance_threshold p1 <= distance_threshold p2 ->
  forall ps1, eval (predict_batch df) p1 = Ok ps1 ->
  exists ps2, eval (predict_batch df) p2 = Ok ps2 /\ Forall2 agree ps1 ps2.
Proof.
  intros Hc Hs Ht. induction df as [| r rest IH]; intros ps1 H.
  - injection H as <-. exists []. split; [reflexivity | constructor].
  - rewrite predict_batch_cons in H.
    apply rbind_ok in H as (x & Hx & H).
    apply rbind_ok in H as (ps & Hps & H). injection H as <-.
    destruct (IH ps Hps) as (ps2 & Hps2 & Hag).
    destruct (predict_no_new_error p1 p2 Hc Hs (feat r) x Hx) as (y & Hy).
    exists ({| predicted_event := fst (fst y); distance := snd (fst y);
               confidence := snd y; actual_event := event_name r |} :: ps2).
    split.
    + rewrite predict_batch_cons, Hy. cbn [rbind]. now rewrite Hps2.
    + constructor; [| exact Hag].
      destruct x as [[ev1 d1] c1], y as [[ev2 d2] c2].
      unfold agree. cbn. split; [reflexivity |]. split.
      * intros e ->.
        destruct (predict_match_kept p1 p2 Hc Hs Ht (feat r) e d1 c1 Hx)
          as (c' & Hy').
        rewrite Hy in Hy'. now injection Hy' as -> _ _.
      * intros ->.
        pose proof (predict_rejection_kept p1 p2 Hc Hs Ht (feat r) d2 c2 Hy)
          as Hx'.
        rewrite Hx in Hx'. now injection Hx' as -> _ _.
Qed.

Lemma correct_monotone (known : list string) (ps1 ps2 : list prediction_row) :
  Forall2 agree ps1 ps2 ->
  (correct known ps1 <= correct known ps2)%nat.
Proof.
  unfold correct.
  induction 1 as [| r1 r2 ps1 ps2 (Ha & Hm & _) _ IH]; [reflexivity |].
  assert (Hk : is_known known r2 = is_known known r1)
    by (unfold is_known; now rewrite Ha).
  cbn [filter]. rewrite Hk.
  destruct (is_known known r1); [| exact IH].
  cbn [filter]. rewrite <- Ha.
  destruct (predicted_event r1) as [e |] eqn:E1; cbn [option_string_eqb].
  - rewrite (Hm e eq_refl). cbn [option_string_eqb].
    destruct (String.eqb e (actual_event r1)); cbn [List.length]; lia.
  - destruct (option_string_eqb (predicted_event r2) (actual_event r1));
      cbn [List.length]; lia.
Qed.

Lemma correct_rejected_antitone (known : list string)
    (ps1 ps2 : list prediction_row) :
  Forall2 agree ps1 ps2 ->
  (correct_rejected known ps2 <= correct_rejected known ps1)%nat.
Proof.
  unfold correct_rejected.
  induction 1 as [| r1 r2 ps1 ps2 (Ha & _ & Hr) _ IH]; [reflexivity |].
  assert (Hk : is_known known r2 = is_known known r1)
    by (unfold is_known; now rewrite Ha).
  cbn [filter]. rewrite Hk.
  destruct (is_known known r1); cbn [negb]; [exact IH |].
  cbn [filter].
  destruct (predicted_event r2) as [e |] eqn:E2.
  - destruct (predicted_event r1); cbn [List.length]; lia.
  - rewrite (Hr eq_refl). cbn [List.length]. lia.
Qed.

Lemma sweep_step_eval (train test : DataFrame) (t : R) :
  fst (sweep_step train test t) =
  match StandardScaler_fit (map (fun r => temporal (feat r)) train) with
  | Ok _ => eval (predict_batch test) (fitted train t)
  | Raise ex => Raise ex
  end.
Proof.
  unfold sweep_step, fitted, exec, eval, fit, mbind, set_centroids, lift,
    set_scaler.
  cbn [fst snd].
  destruct (StandardScaler_fit _); reflexivity.
Qed.

Lemma known_rows_same (known : list string) (ps1 ps2 : list prediction_row) :
  Forall2 agree ps1 ps2 ->
  List.length (filter (is_known known) ps1)
  = List.length (filter (is_known known) ps2).
Proof.
  induction 1 as [| r1 r2 ps1 ps2 (Ha & _ & _) _ IH]; [reflexivity |].
  assert (Hk : is_known known r2 = is_known known r1)
    by (unfold is_known; now rewrite Ha).
  cbn [filter]. rewrite Hk.
  destruct (is_known known r1); cbn [List.length]; now rewrite IH.
Qed.

(** * The claims *)

(** C2 (as the code has it): [predict] on a predictor whose centroid set is
    empty, one that was never fitted included, raises nothing; it returns
    the default prediction [(None, inf, 0.0)] and leaves the predictor as it
    was. *)
Theorem predict_empty_centroids (self : EventSimilarityPredictor) (q : features) :
  centroids self = [] ->
  eval (predict q) self = Ok (None, DInf, 0) /\
  (forall ex, eval (predict q) self <> Raise ex) /\
  exec (predict q) self = self.
Proof.
  intros H. rewrite predict_eval, predict_exec, H. simpl.
  repeat split. intros ex. discriminate.
Qed.

(** At a predictor fresh from [__init__]. *)
Lemma predict_empty_centroids_witness :
  centroids (init DISTANCE_THRESHOLD) = [] /\
  eval (predict query_with_coords) (init DISTANCE_THRESHOLD) = Ok (None, DInf, 0).
Proof.
  split; [reflexivity |].
  apply (predict_empty_centroids (init DISTANCE_THRESHOLD) query_with_coords).
  reflexivity.
Defined.

(** C2 fails as stated: a predictor fresh from [__init__], never fitted,
    answers a query with the default prediction instead of an error. *)
Lemma predict_before_fit_is_silent :
  scaler (init DISTANCE_THRESHOLD) = None /\
  centroids (init DISTANCE_THRESHOLD) = [] /\
  eval (predict query_with_coords) (init DISTANCE_THRESHOLD) = Ok (None, DInf, 0) /\
  ~ (exists ex, eval (predict query_with_coords) (init DISTANCE_THRESHOLD) = Raise ex).
Proof.
  repeat split. intros [ex H]. discriminate H.
Qed.

(** C4: for every training table, every minimum support [m] and every
    event (a label of the table, or any label at all when [m >= 1]), the
    event is a key of the centroid mapping iff it has at least [m] rows; with
    exactly [m - 1] rows it is absent, with exactly [m] rows it is present. *)
Theorem min_support_exclusion (df : DataFrame) (m : Z) (e : string) :
  In e (map event_name df) \/ (1 <= m)%Z ->
  (In e (keys (compute_event_centroids df m)) <->
     (m <= Z.of_nat (count_event e df))%Z) /\
  (Z.of_nat (count_event e df) = (m - 1)%Z ->
     ~ In e (keys (compute_event_centroids df m))) /\
  (Z.of_nat (count_event e df) = m ->
     In e (keys (compute_event_centroids df m))).
Proof.
  intros Hin.
  assert (Hiff : In e (keys (compute_event_centroids df m)) <->
                 (m <= Z.of_nat (count_event e df))%Z).
  { rewrite compute_event_centroids_keys, well_defined_events_in.
    split; [tauto |]. intros Hm. split; [| exact Hm].
    destruct Hin as [Hin | Hone]; [exact Hin |].
    apply count_event_pos. lia. }
  split; [exact Hiff |]. split.
  - intros Hc Hk. apply Hiff in Hk. lia.
  - intros Hc. apply Hiff. lia.
Qed.

(** Three rows of one event: retained at support 3, dropped at 4. *)
Lemma min_support_exclusion_witness :
  In "A"%string (map event_name train_no_coords) /\
  In "A"%string (keys (compute_event_centroids train_no_coords 3)) /\
  ~ In "A"%string (keys (compute_event_centroids train_no_coords 4)).
Proof.
  assert (Hin : In "A"%string (map event_name train_no_coords))
    by (left; reflexivity).
  split; [exact Hin |]. split.
  - apply (min_support_exclusion train_no_coords 3 "A"%string (or_introl Hin)).
    reflexivity.
  - apply (min_support_exclusion train_no_coords 4 "A"%string (or_introl Hin)).
    reflexivity.
Defined.

(** C7: for every retained event, the latitude stored in its centroid is
    [None] iff every row of the table with that event's label lacks the
    latitude; if some row of the event has one, the stored value is the
    arithmetic mean of the latitudes recorded in the event's rows, and of
    nothing else: the rows of other events and the missing entries play no
    part.  The same holds for the longitude, and the two are [None] together
    when each row of the event has both fields or neither. *)
Theorem spatial_mean_skips_missing (df : DataFrame) (m : Z) (e : string)
    (c : centroid) :
  In (e, c) (compute_event_centroids df m) ->
  let lats := recorded start_lat e df in
  let lngs := recorded start_lng e df in
  (c_start_lat c = PyNone <->
   forall r, In r df -> event_name r = e -> isna (start_lat (feat r)) = true) /\
  ((exists r, In r df /\ event_name r = e /\ isna (start_lat (feat r)) = false) ->
   lats <> [] /\
   c_start_lat c = Num (Rsum lats / INR (List.length lats))) /\
  (c_start_lng c = PyNone <->
   forall r, In r df -> event_name r = e -> isna (start_lng (feat r)) = true) /\
  ((exists r, In r df /\ event_name r = e /\ isna (start_lng (feat r)) = false) ->
   lngs <> [] /\
   c_start_lng c = Num (Rsum lngs / INR (List.length lngs))) /\
  ((forall r, In r df -> event_name r = e ->
      isna (start_lat (feat r)) = isna (start_lng (feat r))) ->
   (c_start_lat c = PyNone <-> c_start_lng c = PyNone)).
Proof.
  intros H lats lngs.
  apply compute_event_centroids_values in H as [_ ->].
  cbn [make_centroid c_start_lat c_start_lng].
  assert (Hsome : forall column,
    (exists r, In r df /\ event_name r = e /\ isna (column (feat r)) = false) ->
    recorded column e df <> [] /\
    spatial_mean (map (fun r => column (feat r)) (event_rows df e))
    = Num (Rsum (recorded column e df)
           / INR (List.length (recorded column e df)))).
  { intros column (r & Hin & He & Hr).
    assert (Hnot : ~ Forall (fun x => isna x = true)
                     (map (fun r => column (feat r)) (event_rows df e))).
    { rewrite event_rows_all_missing. intros Hall.
      rewrite (Hall r Hin He) in Hr. discriminate. }
    split.
    - rewrite <- present_event_rows. now rewrite present_nil_iff.
    - rewrite (spatial_mean_some _ Hnot). now rewrite present_event_rows. }
  split; [rewrite spatial_mean_none; apply event_rows_all_missing |].
  split; [apply (Hsome start_lat) |].
  split; [rewrite spatial_mean_none; apply event_rows_all_missing |].
  split; [apply (Hsome start_lng) |].
  intros Hjoint. rewrite !spatial_mean_none, !event_rows_all_missing.
  split; intros Hall r Hin He; specialize (Hall r Hin He);
    specialize (Hjoint r Hin He); congruence.
Qed.

(** Two interleaved events.  No row of "A" has a start point: its centroid
    holds [None], although the table has coordinates in other rows.  The
    second row of "B" has none: its means run over the two others. *)
Lemma spatial_mean_skips_missing_witness :
  exists cA cB,
    compute_event_centroids train_two_events 3
    = [("A"%string, cA); ("B"%string, cB)] /\
    c_start_lat cA = PyNone /\ c_start_lng cA = PyNone /\
    c_start_lat cB = Num (Rsum [1; 3] / INR 2) /\
    c_start_lng cB = Num (Rsum [5; 7] / INR 2).
Proof.
  eexists. eexists. split; [reflexivity |].
  match goal with
  | |- c_start_lat ?a = _ /\ _ /\ c_start_lat ?b = _ /\ _ =>
      set (cA := a); set (cB := b)
  end.
  assert (HA : In ("A"%string, cA) (compute_event_centroids train_two_events 3))
    by (left; reflexivity).
  assert (HB : In ("B"%string, cB) (compute_event_centroids train_two_events 3))
    by (right; left; reflexivity).
  destruct (spatial_mean_skips_missing train_two_events 3 "A"%string cA HA)
    as (HlatA & _ & HlngA & _ & _).
  destruct (spatial_mean_skips_missing train_two_events 3 "B"%string cB HB)
    as (_ & HlatB & _ & HlngB & _).
  assert (Hmissing : forall column : features -> coord,
            column = start_lat \/ column = start_lng ->
            forall r, In r train_two_events -> event_name r = "A"%string ->
                      isna (column (feat r)) = true).
  { intros column Hcol r Hr He. cbn [In train_two_events] in Hr.
    destruct Hr as [<- | [<- | [<- | [<- | [<- | [<- | []]]]]]];
      try discriminate He; destruct Hcol as [-> | ->]; reflexivity. }
  split; [apply HlatA, (Hmissing start_lat); now left |].
  split; [apply HlngA, (Hmissing start_lng); now right |].
  split.
  - apply HlatB. exists (mk_row 100 10 9 (Num 1) (Num 5) "B"%string).
    split; [right; left; reflexivity | split; reflexivity].
  - apply HlngB. exists (mk_row 100 10 9 (Num 1) (Num 5) "B"%string).
    split; [right; left; reflexivity | split; reflexivity].
Defined.

(** C9: [predict] and [predict_batch] leave the predictor as they found it:
    after any sequence of such calls, whether they returned or raised, the
    centroid mapping, the normalizer parameters and the threshold are the
    ones from before. *)
Theorem predict_leaves_state_unchanged (cs : list call)
    (self : EventSimilarityPredictor) :
  run_calls cs self = self /\
  centroids (run_calls cs self) = centroids self /\
  scaler (run_calls cs self) = scaler self /\
  distance_threshold (run_calls cs self) = distance_threshold self.
Proof.
  assert (H : run_calls cs self = self).
  { unfold run_calls. induction cs as [| c cs IH]; simpl.
    - reflexivity.
    - replace (run_call c self) with self; [exact IH |].
      destruct c as [f | df]; simpl.
      + now rewrite predict_exec.
      + now rewrite predict_batch_exec. }
  rewrite H. repeat split.
Qed.

(** C1 fails on the code: a predictor fitted on an event whose runs all
    lack a start point stores [None] as that centroid's coordinates; a query
    that has coordinates then makes [predict] raise [TypeError] instead of
    returning a prediction. *)
Theorem predict_raises_on_centroid_without_coords :
  let self := fitted train_no_coords DISTANCE_THRESHOLD in
  keys (centroids self) = ["A"%string] /\
  scaler self <> None /\
  eval (predict query_with_coords) self = Raise TypeError.
Proof.
  repeat split. discriminate.
Qed.

(** C3 fails on the code: after fitting on an event whose runs all lack a
    start point, the centroid tuple holds [None] in both spatial fields, and
    the distance from a query that has coordinates to it is a [TypeError],
    not the temporal distance. *)
Theorem custom_distance_raises_on_none :
  let self := fitted train_no_coords DISTANCE_THRESHOLD in
  exists (c : centroid) (p : scaler_params),
    centroids self = [("A"%string, c)] /\
    scaler self = Some p /\
    start_lat (centroid_vector c) = PyNone /\
    start_lng (centroid_vector c) = PyNone /\
    has_coords query_with_coords /\
    custom_distance query_with_coords (centroid_vector c) (Some p)
    = Raise TypeError.
Proof.
  eexists. eexists.
  split; [reflexivity |]. split; [reflexivity |].
  split; [reflexivity |]. split; [reflexivity |].
  split; [| reflexivity].
  exists 0, 0. split; reflexivity.
Qed.

(** C10 fails on the code: between a query without coordinates ([nan]) and
    the centroid tuple of an event without coordinates ([None]) the distance
    is the temporal one in the order [predict] uses, and a [TypeError] with
    the arguments exchanged. *)
Theorem custom_distance_asymmetric_on_none :
  let self := fitted train_no_coords DISTANCE_THRESHOLD in
  exists (c : centroid) (p : scaler_params),
    centroids self = [("A"%string, c)] /\
    scaler self = Some p /\
    let x := query_without_coords in
    let y := centroid_vector c in
    custom_distance x y (Some p) = Ok (DFin (temporal_distance p x y)) /\
    custom_distance y x (Some p) = Raise TypeError /\
    custom_distance x y (Some p) <> custom_distance y x (Some p).
Proof.
  eexists. eexists.
  split; [reflexivity |]. split; [reflexivity |].
  split; [reflexivity |]. split; [reflexivity |].
  discriminate.
Qed.

(** C8: when several centroids are at the same least distance from the
    query, the search loop keeps the first of them in the iteration order of
    the mapping: after the loop the locals [(min_distance, nearest_event)]
    hold that distance and that event.  Hence an event returned by [predict]
    is that first centroid's, never a later one at the same distance, and
    [predict] does return it when the distance passes the threshold test. *)
Theorem tie_break_first_encountered (self : EventSimilarityPredictor)
    (q : features) (before after : dict centroid) (e : string) (c : centroid)
    (d : R) :
  centroids self = before ++ (e, c) :: after ->
  Forall (fun ec => exists x, centroid_distance self q (snd ec) = Ok x /\
                              dist_le x (DFin d) = false) before ->
  centroid_distance self q c = Ok (DFin d) ->
  Forall (fun ec => exists x, centroid_distance self q (snd ec) = Ok x /\
                              dist_lt x (DFin d) = false) after ->
  nearest q (scaler self) (centroids self) (DInf, None) = Ok (DFin d, Some e) /\
  (forall e' d' conf,
     eval (predict q) self = Ok (Some e', d', conf) -> e' = e /\ d' = DFin d) /\
  (d <= distance_threshold self ->
   eval (predict q) self
   = Ok (Some e, DFin d, 1 - d / distance_threshold self)).
Proof.
  intros Hcs Hb Hc Ha.
  assert (Hn : nearest q (scaler self) (centroids self) (DInf, None)
               = Ok (DFin d, Some e)).
  { rewrite Hcs. unfold centroid_distance in *.
    exact (nearest_first_min q (scaler self) before after e c d Hb Hc Ha). }
  split; [exact Hn |].
  rewrite predict_eval, Hn. cbn [rbind fst snd]. unfold gate.
  destruct (Rle_dec d (distance_threshold self)) as [Hle | Hgt]; split.
  - intros e' d' conf H. injection H as <- <- _. split; reflexivity.
  - intros _. reflexivity.
  - intros e' d' conf H. discriminate.
  - intros H. contradiction.
Qed.

(** Both twins are at distance 0 from the query; the first is selected and
    returned. *)
Lemma tie_break_first_encountered_witness :
  let self := fitted train_twins DISTANCE_THRESHOLD in
  centroids self
  = [] ++ ("A"%string, twin_centroid) :: [("B"%string, twin_centroid)] /\
  centroid_distance self query_on_twins twin_centroid = Ok (DFin 0) /\
  0 <= distance_threshold self /\
  nearest query_on_twins (scaler self) (centroids self) (DInf, None)
  = Ok (DFin 0, Some "A"%string) /\
  eval (predict query_on_twins) self
  = Ok (Some "A"%string, DFin 0, 1 - 0 / distance_threshold self).
Proof.
  intros self.
  assert (Hcs : centroids self
                = [] ++ ("A"%string, twin_centroid) :: [("B"%string, twin_centroid)])
    by (unfold self; now rewrite twins_state).
  assert (Hd : centroid_distance self query_on_twins twin_centroid = Ok (DFin 0))
    by apply twin_distance_on.
  assert (Ht : 0 <= distance_threshold self)
    by (unfold self; rewrite fitted_threshold; unfold DISTANCE_THRESHOLD; lra).
  assert (Hb : Forall (fun ec : string * centroid => exists x,
                  centroid_distance self query_on_twins (snd ec) = Ok x /\
                  dist_le x (DFin 0) = false) []) by apply Forall_nil.
  assert (Ha : Forall (fun ec : string * centroid => exists x,
                  centroid_distance self query_on_twins (snd ec) = Ok x /\
                  dist_lt x (DFin 0) = false) [("B"%string, twin_centroid)]).
  { constructor; [| constructor].
    exists (DFin 0). split; [exact Hd |]. apply dist_lt_irrefl_le. lra. }
  destruct (tie_break_first_encountered self query_on_twins
              [] [("B"%string, twin_centroid)] "A"%string twin_centroid 0
              Hcs Hb Hd Ha) as (Hn & _ & Hp).
  split; [exact Hcs |]. split; [exact Hd |]. split; [exact Ht |].
  split; [exact Hn | exact (Hp Ht)].
Defined.

(** C6 (as the code has it): an admitted prediction of a predictor with a
    positive threshold has a finite distance between 0 and the threshold and
    a confidence between 0 and 1; the confidence is 1 when the distance is
    0, and it is 0 when the distance equals the threshold.  (That the
    confidence is 1 only at distance 0 is not claimed: see the lemma
    below.) *)
Theorem confidence_bounds (self : EventSimilarityPredictor) (q : features)
    (e : string) (d : dist) (conf : R) :
  0 < distance_threshold self ->
  eval (predict q) self = Ok (Some e, d, conf) ->
  exists r, d = DFin r /\
            0 <= r <= distance_threshold self /\
            0 <= conf <= 1 /\
            (r = 0 -> conf = 1) /\
            (r = distance_threshold self -> conf = 0).
Proof.
  intros Ht H.
  apply predict_admitted in H as (c & r & _ & Hd & -> & Hle & ->).
  apply custom_distance_nonneg in Hd.
  set (t := distance_threshold self) in *.
  assert (Hinv : 0 < / t) by now apply Rinv_0_lt_compat.
  assert (Hone : t * / t = 1) by (apply Rinv_r; lra).
  exists r. unfold Rdiv.
  split; [reflexivity |]. split; [lra |]. split; [split; nra |].
  split; intros ->; nra.
Qed.

(** A match at distance 0 under the default threshold. *)
Lemma confidence_bounds_witness :
  0 < DISTANCE_THRESHOLD /\
  eval (predict query_on_twins) (fitted train_twins DISTANCE_THRESHOLD)
  = Ok (Some "A"%string, DFin 0, 1 - 0 / DISTANCE_THRESHOLD) /\
  exists r, DFin 0 = DFin r /\
            0 <= r <= DISTANCE_THRESHOLD /\
            0 <= 1 - 0 / DISTANCE_THRESHOLD <= 1 /\
            (r = 0 -> 1 - 0 / DISTANCE_THRESHOLD = 1) /\
            (r = DISTANCE_THRESHOLD -> 1 - 0 / DISTANCE_THRESHOLD = 0).
Proof.
  assert (Hpos : 0 < DISTANCE_THRESHOLD) by (unfold DISTANCE_THRESHOLD; lra).
  assert (Hev : eval (predict query_on_twins) (fitted train_twins DISTANCE_THRESHOLD)
                = Ok (Some "A"%string, DFin 0, 1 - 0 / DISTANCE_THRESHOLD))
    by (apply twins_predict_on; lra).
  split; [exact Hpos |]. split; [exact Hev |].
  assert (Hpos' : 0 < distance_threshold (fitted train_twins DISTANCE_THRESHOLD))
    by now rewrite fitted_threshold.
  pose proof (confidence_bounds (fitted train_twins DISTANCE_THRESHOLD)
                query_on_twins "A"%string _ _ Hpos' Hev) as H.
  rewrite fitted_threshold in H. exact H.
Defined.

(** C6 fails as stated: the confidence can be 1 at a distance that is not
    0.  In binary64, the predictor fitted on three identical runs of "A"
    answers a run started [1e-17] hours later with the event "A", the
    distance [1e-17], which is positive and within the threshold, and the
    confidence [1.0]: the quotient [1e-17 / 0.40] is less than half the gap
    between 1 and the float below it, so the subtraction rounds to 1. *)
Lemma confidence_one_at_positive_distance :
  (forall haversine_distance,
     Binary64.predict haversine_distance Binary64.query_just_after
       Binary64.fitted_flat
     = Ok (Some "A"%string, Binary64.just_after, PrimFloat.one)) /\
  PrimFloat.ltb PrimFloat.zero Binary64.just_after = true /\
  PrimFloat.leb Binary64.just_after
    (Binary64.distance_threshold Binary64.fitted_flat) = true /\
  PrimFloat.eqb Binary64.just_after PrimFloat.zero = false.
Proof.
  split; [intros haversine_distance; reflexivity |].
  split; [reflexivity |]. split; reflexivity.
Qed.

(** C5: two predictors fitted on the same table with thresholds
    [t1 <= t2].  A query matched to an event under [t1] is matched to the
    same event, at the same distance, under [t2]; a query rejected under
    [t2] is rejected under [t1].  Over a test table, as the sweep counts
    them, the known rows are the same in number, the correct matches do not
    decrease and the correct rejections do not increase. *)
Theorem threshold_monotone (train test : DataFrame) (q : features) (t1 t2 : R) :
  t1 <= t2 ->
  let p1 := fitted train t1 in
  let p2 := fitted train t2 in
  (forall e d conf,
     eval (predict q) p1 = Ok (Some e, d, conf) ->
     exists conf', eval (predict q) p2 = Ok (Some e, d, conf')) /\
  (forall d conf,
     eval (predict q) p2 = Ok (None, d, conf) ->
     eval (predict q) p1 = Ok (None, d, 0)) /\
  (forall ps1,
     fst (sweep_step train test t1) = Ok ps1 ->
     exists ps2,
       fst (sweep_step train test t2) = Ok ps2 /\
       List.length (filter (is_known (keys (centroids p1))) ps1)
       = List.length (filter (is_known (keys (centroids p2))) ps2) /\
       (correct (keys (centroids p1)) ps1
        <= correct (keys (centroids p2)) ps2)%nat /\
       (correct_rejected (keys (centroids p2)) ps2
        <= correct_rejected (keys (centroids p1)) ps1)%nat).
Proof.
  intros Hle p1 p2.
  assert (Hc : centroids p1 = centroids p2)
    by (unfold p1, p2; now rewrite !fitted_centroids).
  assert (Hs : scaler p1 = scaler p2) by apply fitted_scaler.
  assert (Ht : distance_threshold p1 <= distance_threshold p2)
    by (unfold p1, p2; now rewrite !fitted_threshold).
  split; [| split].
  - intros e d conf. now apply predict_match_kept.
  - intros d conf. now apply predict_rejection_kept.
  - intros ps1. rewrite !sweep_step_eval.
    destruct (StandardScaler_fit _) as [sp | ex]; [| discriminate].
    intros H.
    destruct (predict_batch_agree p1 p2 test Hc Hs Ht ps1 H) as (ps2 & H2 & Hag).
    exists ps2. split; [exact H2 |]. rewrite <- Hc.
    split; [now apply known_rows_same |].
    split; [now apply correct_monotone | now apply correct_rejected_antitone].
Qed.

(** A match under 0.25 is the same match under 0.40. *)
Lemma threshold_monotone_witness :
  0.25 <= 0.40 /\
  eval (predict query_on_twins) (fitted train_twins 0.25)
  = Ok (Some "A"%string, DFin 0, 1 - 0 / 0.25) /\
  exists conf',
    eval (predict query_on_twins) (fitted train_twins 0.40)
    = Ok (Some "A"%string, DFin 0, conf').
Proof.
  assert (Hle : 0.25 <= 0.40) by lra.
  assert (H1 : eval (predict query_on_twins) (fitted train_twins 0.25)
               = Ok (Some "A"%string, DFin 0, 1 - 0 / 0.25))
    by (apply twins_predict_on; lra).
  split; [exact Hle |]. split; [exact H1 |].
  exact (proj1 (threshold_monotone train_twins [] query_on_twins 0.25 0.40 Hle)
           "A"%string (DFin 0) (1 - 0 / 0.25) H1).
Defined.

(** * Further properties *)

(** ** Geo-distance primitive *)

Lemma haversine_num_value (lat1 lon1 lat2 lon2 : R) :
  haversine_distance (Num lat1) (Num lon1) (Num lat2) (Num lon2)
  = Ok (DFin (haversine_km lat1 lon1 lat2 lon2)).
Proof.
  unfold haversine_distance. cbn [radians rbind].
  now rewrite haversine_rad_ok.
Qed.

(** X2: exchanging the two points never changes the outcome of
    [haversine_distance], be it a distance, [nan] or the [TypeError] that a
    [None] argument causes. *)
Theorem haversine_symmetric (lat1 lon1 lat2 lon2 : coord) :
  haversine_distance lat1 lon1 lat2 lon2 = haversine_distance lat2 lon2 lat1 lon1.
Proof.
  unfold haversine_distance.
  destruct lat1, lon1, lat2, lon2; cbn [radians rbind]; try reflexivity.
  now rewrite haversine_rad_sym.
Qed.

Lemma hav_a_same (lat lon : R) : hav_a lat lon lat lon = 0.
Proof.
  unfold hav_a.
  replace ((lat - lat) / 2) with 0 by lra.
  replace ((lon - lon) / 2) with 0 by lra.
  rewrite sin_0. ring.
Qed.

Lemma atan2_0_1 : atan2 0 1 = 0.
Proof.
  unfold atan2. destruct (Rlt_dec 0 1) as [_ | H]; [| lra].
  replace (0 / 1) with 0 by lra. apply atan_0.
Qed.

Lemma haversine_km_same (lat lon : R) : haversine_km lat lon lat lon = 0.
Proof.
  unfold haversine_km. rewrite hav_a_same.
  replace (1 - 0) with 1 by ring. rewrite sqrt_0, sqrt_1, atan2_0_1. ring.
Qed.

(** X3: a point is at distance 0 from itself. *)
Theorem haversine_same_point (lat lon : R) :
  haversine_distance (Num lat) (Num lon) (Num lat) (Num lon) = Ok (DFin 0).
Proof.
  rewrite haversine_num_value. unfold haversine_km. rewrite hav_a_same.
  replace (1 - 0) with 1 by ring.
  rewrite sqrt_0, sqrt_1, atan2_0_1.
  do 2 f_equal. ring.
Qed.

(** X5: the outcomes of [haversine_distance] that rounding cannot change.
    It raises [TypeError] exactly when one of the four arguments is [None];
    it returns [nan] exactly when none is [None] and one is [nan]; a number
    it returns is not negative, and then the four arguments were numbers; it
    never returns [inf]; and it raises nothing besides [TypeError] and the
    [ValueError] of [math.sqrt]. *)
Theorem haversine_outcomes (lat1 lon1 lat2 lon2 : coord) :
  let r := haversine_distance lat1 lon1 lat2 lon2 in
  (r = Raise TypeError <->
   lat1 = PyNone \/ lon1 = PyNone \/ lat2 = PyNone \/ lon2 = PyNone) /\
  (r = Ok DNaN <->
   (lat1 <> PyNone /\ lon1 <> PyNone /\ lat2 <> PyNone /\ lon2 <> PyNone) /\
   (lat1 = NaN \/ lon1 = NaN \/ lat2 = NaN \/ lon2 = NaN)) /\
  (forall d, r = Ok (DFin d) ->
     0 <= d /\
     exists a b c e, lat1 = Num a /\ lon1 = Num b /\ lat2 = Num c /\ lon2 = Num e) /\
  (forall ex, r = Raise ex -> ex = TypeError \/ ex = ValueError) /\
  r <> Ok DInf.
Proof.
  cbv zeta.
  assert (Hnum : forall a b c e d,
            haversine_distance (Num a) (Num b) (Num c) (Num e) = Ok (DFin d) ->
            0 <= d).
  { intros a b c e d H. unfold haversine_distance in H.
    cbn [radians rbind] in H. apply rbind_ok in H as (d' & Hr & Hd).
    injection Hd as <-. eapply haversine_rad_nonneg; eassumption. }
  destruct lat1 as [| | a], lon1 as [| | b], lat2 as [| | c], lon2 as [| | e];
    try (specialize (Hnum a b c e); rewrite haversine_num_value in *);
    unfold haversine_distance; cbn [radians rbind];
    (split; [| split; [| split; [| split]]]);
    try (split; intros H); try (intros d H); try (intros ex H);
    try discriminate; try congruence; try tauto;
    try (injection H as <-; tauto);
    try (exfalso; intuition congruence);
    try (intuition congruence).
  split; [now apply Hnum | now exists a, b, c, e].
Qed.

(** ** Composite distance *)

Lemma custom_distance_unfold p f1 f2 :
  custom_distance f1 f2 (Some p) =
  (n1 <- np_isnan (start_lat f1) ;;
   missing <- (if n1 then Ok true else np_isnan (start_lat f2)) ;;
   if negb missing then
     coord_dist <- haversine_distance (start_lat f1) (start_lng f1)
                                      (start_lat f2) (start_lng f2) ;;
     Ok (combine (temporal_distance p f1 f2) coord_dist)
   else
     Ok (DFin (temporal_distance p f1 f2)))%result.
Proof. reflexivity. Qed.

(** With a fitted scaler the only exception is [TypeError], and it takes a
    [None] to raise it.  (Over exact reals: in binary64 the geo-distance can
    also raise [ValueError].) *)
Lemma custom_distance_raise_inv p f1 f2 ex :
  custom_distance f1 f2 (Some p) = Raise ex ->
  ex = TypeError /\
  (start_lat f1 = PyNone \/ start_lng f1 = PyNone \/
   start_lat f2 = PyNone \/ start_lng f2 = PyNone).
Proof.
  destruct (start_lat f1) as [| | a] eqn:E1.
  - rewrite custom_distance_none_left by assumption.
    intros H. injection H as <-. tauto.
  - rewrite custom_distance_nan_left by assumption. discriminate.
  - destruct (start_lat f2) as [| | b] eqn:E2.
    + rewrite (custom_distance_none_right p f1 f2 a) by assumption.
      intros H. injection H as <-. tauto.
    + rewrite (custom_distance_nan_right p f1 f2 a) by assumption. discriminate.
    + rewrite (custom_distance_both p f1 f2 a b) by assumption.
      unfold haversine_distance.
      destruct (start_lng f1) as [| | g1], (start_lng f2) as [| | g2];
        cbn [radians rbind]; try discriminate;
        try (intros H; injection H as <-; tauto).
      rewrite haversine_rad_ok. discriminate.
Qed.

(** X8: the outcomes of [custom_distance] that rounding cannot change.
    Under a fitted normalizer it raises [TypeError] exactly when the first
    latitude is [None], or the first is a number and the second [None], or
    both are numbers and a longitude is [None]; it returns [nan] when both
    latitudes are numbers, no longitude is [None] and one is [nan]; a number
    it returns is not negative; and it raises nothing besides [TypeError]
    and the [ValueError] of the geo-distance.  Under an unfitted normalizer
    it raises [NotFittedError] whatever the tuples hold. *)
Theorem custom_distance_outcomes (p : scaler_params) (f1 f2 : features) :
  let r := custom_distance f1 f2 (Some p) in
  (r = Raise TypeError <->
   start_lat f1 = PyNone \/
   (exists a, start_lat f1 = Num a /\
      (start_lat f2 = PyNone \/
       (exists b, start_lat f2 = Num b /\
          (start_lng f1 = PyNone \/ start_lng f2 = PyNone))))) /\
  ((exists a b, start_lat f1 = Num a /\ start_lat f2 = Num b /\
                start_lng f1 <> PyNone /\ start_lng f2 <> PyNone /\
                (start_lng f1 = NaN \/ start_lng f2 = NaN)) ->
   r = Ok DNaN) /\
  (forall d, r = Ok (DFin d) -> 0 <= d) /\
  (forall ex, r = Raise ex -> ex = TypeError \/ ex = ValueError) /\
  custom_distance f1 f2 None = Raise NotFittedError.
Proof.
  cbv zeta.
  split; [| split; [| split; [| split]]].
  - rewrite custom_distance_unfold.
    generalize (temporal_distance p f1 f2). intros t.
    destruct (start_lat f1) as [| | a], (start_lng f1) as [| | c],
             (start_lat f2) as [| | b], (start_lng f2) as [| | d];
      try rewrite haversine_num_value;
      unfold haversine_distance; cbn [np_isnan radians rbind negb combine];
      split; intros H;
      try reflexivity; try discriminate; try congruence;
      try (now left);
      try (right; eexists; split; [reflexivity |]; now left);
      try (right; eexists; split; [reflexivity |]; right; eexists;
           split; [reflexivity |]; tauto);
      try (destruct H as [H | (a' & H & [H' | (b' & H' & [H'' | H''])])];
           congruence).
  - intros (a & b & E1 & E2 & G1 & G2 & Hnan).
    rewrite (custom_distance_both p f1 f2 a b E1 E2).
    unfold haversine_distance.
    destruct (start_lng f1) as [| | g1], (start_lng f2) as [| | g2];
      try congruence; cbn [radians rbind combine]; try reflexivity.
    destruct Hnan; discriminate.
  - intros d. apply custom_distance_nonneg.
  - intros ex H. left. now apply custom_distance_raise_inv in H as [-> _].
  - reflexivity.
Qed.

(** X9: when the two tuples have the same coordinates, the composite
    distance is exactly half their temporal distance; the same query without
    its coordinates gets the whole temporal distance. *)
Theorem coincident_coordinates_halve (p : scaler_params) (f1 f2 : features)
    (lat lng : R) :
  start_lat f1 = Num lat -> start_lng f1 = Num lng ->
  start_lat f2 = Num lat -> start_lng f2 = Num lng ->
  custom_distance f1 f2 (Some p) = Ok (DFin (0.5 * temporal_distance p f1 f2)) /\
  custom_distance (strip_coords f1) f2 (Some p)
  = Ok (DFin (temporal_distance p f1 f2)).
Proof.
  intros E1 G1 E2 G2. split.
  - rewrite (custom_distance_both p f1 f2 lat lat E1 E2), G1, G2.
    rewrite haversine_num_value, haversine_km_same. cbn [rbind combine].
    do 2 f_equal. lra.
  - now rewrite custom_distance_nan_left.
Qed.

Lemma coincident_coordinates_halve_witness :
  start_lat query_with_coords = Num 0 /\ start_lng query_with_coords = Num 0 /\
  custom_distance query_with_coords query_with_coords (Some twin_scaler)
  = Ok (DFin (0.5 * temporal_distance twin_scaler query_with_coords
                                      query_with_coords)).
Proof.
  split; [reflexivity |]. split; [reflexivity |].
  apply (coincident_coordinates_halve twin_scaler query_with_coords
           query_with_coords 0 0); reflexivity.
Defined.

Lemma custom_distance_spec_witness :
  has_coords query_with_coords /\ lacks_coords query_without_coords /\
  custom_distance query_with_coords query_without_coords (Some twin_scaler)
  = Ok (DFin (temporal_distance twin_scaler query_with_coords
                                query_without_coords)).
Proof.
  assert (H1 : has_coords query_with_coords)
    by (exists 0, 0; split; reflexivity).
  assert (H2 : lacks_coords query_without_coords) by (split; reflexivity).
  split; [exact H1 |]. split; [exact H2 |].
  apply (custom_distance_spec twin_scaler query_with_coords query_without_coords
           (or_introl H1) (or_intror H2)).
  now right.
Defined.

Lemma custom_distance_sym_floats_witness :
  start_lat query_with_coords <> PyNone /\
  start_lat query_without_coords <> PyNone /\
  custom_distance query_with_coords query_without_coords (Some twin_scaler)
  = custom_distance query_without_coords query_with_coords (Some twin_scaler).
Proof.
  split; [discriminate |]. split; [discriminate |].
  apply custom_distance_sym_floats; discriminate.
Defined.

(** ** Centroid builder *)

Lemma first_seen_NoDup (l seen : list string) : NoDup (first_seen seen l).
Proof.
  revert seen. induction l as [| x t IH]; intros seen; simpl.
  - constructor.
  - destruct (in_dec string_dec x seen) as [H | H]; [apply IH |].
    constructor; [| apply IH].
    intros Hin. apply first_seen_in in Hin as [_ Hn]. apply Hn. now left.
Qed.

Lemma insert_desc_perm (x : string * nat) (l : list (string * nat)) :
  Permutation (x :: l) (insert_desc x l).
Proof.
  induction l as [| y t IH]; simpl.
  - apply Permutation_refl.
  - destruct (snd y <=? snd x)%nat.
    + apply Permutation_refl.
    + eapply perm_trans; [apply perm_swap |]. now apply perm_skip.
Qed.

Lemma sort_desc_perm (l : list (string * nat)) : Permutation l (sort_desc l).
Proof.
  induction l as [| x t IH]; simpl.
  - apply Permutation_refl.
  - eapply perm_trans; [| apply insert_desc_perm]. now apply perm_skip.
Qed.

Lemma insert_desc_sorted (x : string * nat) (l : list (string * nat)) :
  StronglySorted count_ge l -> StronglySorted count_ge (insert_desc x l).
Proof.
  induction 1 as [| y t Ht IH Hy]; simpl.
  - constructor; constructor.
  - destruct (snd y <=? snd x)%nat eqn:E.
    + apply Nat.leb_le in E. constructor; [constructor; assumption |].
      constructor; [exact E |].
      eapply Forall_impl; [| exact Hy]. unfold count_ge. intros z Hz. lia.
    + apply Nat.leb_gt in E. constructor; [exact IH |].
      apply (Permutation_Forall (insert_desc_perm x t)).
      constructor; [unfold count_ge; lia | exact Hy].
Qed.

Lemma sort_desc_sorted (l : list (string * nat)) :
  StronglySorted count_ge (sort_desc l).
Proof.
  induction l as [| x t IH]; simpl; [constructor |].
  now apply insert_desc_sorted.
Qed.

Lemma value_counts_NoDup (df : DataFrame) : NoDup (map fst (value_counts df)).
Proof.
  unfold value_counts.
  eapply Permutation_NoDup.
  - apply Permutation_map. apply sort_desc_perm.
  - rewrite map_map. cbn [fst]. rewrite map_id. apply first_seen_NoDup.
Qed.

Lemma NoDup_map_fst_filter {A B} (f : A * B -> bool) (l : list (A * B)) :
  NoDup (map fst l) -> NoDup (map fst (filter f l)).
Proof.
  induction l as [| x t IH]; simpl; intros H; [constructor |].
  inversion H as [| ? ? Hx Ht]; subst.
  destruct (f x); simpl; [| now apply IH].
  constructor; [| now apply IH].
  intros Hin. apply Hx. apply in_map_iff in Hin as (y & Hy & Hin).
  apply filter_In in Hin as [Hin _]. apply in_map_iff. now exists y.
Qed.

Lemma well_defined_events_NoDup (df : DataFrame) (m : Z) :
  NoDup (well_defined_events df m).
Proof.
  unfold well_defined_events. apply NoDup_map_fst_filter, value_counts_NoDup.
Qed.

Lemma dict_set_fresh {V} (d : dict V) (k : string) (v : V) :
  ~ In k (keys d) -> dict_set d k v = d ++ [(k, v)].
Proof.
  unfold keys. induction d as [| [k' v'] rest IH]; simpl; intros H.
  - reflexivity.
  - destruct (String.eqb k' k) eqn:E.
    + apply String.eqb_eq in E. tauto.
    + f_equal. apply IH. tauto.
Qed.

Lemma build_fresh {V} (f : string -> V) (l : list string) (d : dict V) :
  NoDup l -> (forall k, In k l -> ~ In k (keys d)) ->
  fold_left (fun acc k => dict_set acc k (f k)) l d
  = d ++ map (fun k => (k, f k)) l.
Proof.
  revert d. induction l as [| k t IH]; intros d Hnd Hfresh; simpl.
  - now rewrite app_nil_r.
  - inversion Hnd as [| ? ? Hk Ht]; subst.
    rewrite dict_set_fresh by (apply Hfresh; now left).
    rewrite IH; [now rewrite <- app_assoc | exact Ht |].
    intros k' Hk' Hin. unfold keys in Hin. rewrite map_app in Hin.
    apply in_app_or in Hin as [Hin | [<- | []]].
    + apply (Hfresh k'); [now right | exact Hin].
    + contradiction.
Qed.

Lemma compute_event_centroids_map (df : DataFrame) (m : Z) :
  compute_event_centroids df m
  = map (fun e => (e, make_centroid (event_rows df e))) (well_defined_events df m).
Proof.
  unfold compute_event_centroids.
  rewrite (build_fresh (fun e => make_centroid (event_rows df e)));
    [reflexivity | apply well_defined_events_NoDup | intros k _ []].
Qed.

(** X10: the centroid mapping has one entry per event of sufficient
    support, without repeated keys, in the order of [value_counts]; each
    entry is built from the rows of its own event only, and its
    [sample_count] is the number of those rows, at least the minimum support
    and at least one. *)
Theorem centroid_table_shape (df : DataFrame) (m : Z) :
  let cs := compute_event_centroids df m in
  NoDup (keys cs) /\
  keys cs = well_defined_events df m /\
  (forall e c, In (e, c) cs ->
     c = make_centroid (event_rows df e) /\
     sample_count c = count_event e df /\
     (m <= Z.of_nat (sample_count c))%Z /\
     (1 <= sample_count c)%nat).
Proof.
  cbv zeta.
  assert (Hk : keys (compute_event_centroids df m) = well_defined_events df m).
  { rewrite compute_event_centroids_map. unfold keys. rewrite map_map.
    cbn [fst]. apply map_id. }
  split; [rewrite Hk; apply well_defined_events_NoDup |].
  split; [exact Hk |].
  intros e c Hin. apply compute_event_centroids_values in Hin as [Hw ->].
  apply well_defined_events_in in Hw as [Hl Hm].
  split; [reflexivity |]. split; [reflexivity |]. split; [exact Hm |].
  change (sample_count (make_centroid (event_rows df e))) with (count_event e df).
  unfold count_event. apply in_map_iff in Hl as (r & Hr & Hin).
  assert (Hf : In r (filter (fun r0 => String.eqb (event_name r0) e) df))
    by (apply filter_In; split; [exact Hin | now apply String.eqb_eq]).
  destruct (filter _ df); [destruct Hf | simpl; lia].
Qed.

Lemma StronglySorted_filter {A} (R : A -> A -> Prop) (f : A -> bool) (l : list A) :
  StronglySorted R l -> StronglySorted R (filter f l).
Proof.
  induction 1 as [| x t Ht IH Hx]; simpl; [constructor |].
  destruct (f x); [| exact IH].
  constructor; [exact IH |].
  rewrite Forall_forall in *. intros y Hy. apply Hx.
  now apply filter_In in Hy as [Hy _].
Qed.

(** X11: the centroid mapping iterates from the event with the most rows
    to the one with the fewest; on a tie of distances [predict] therefore
    never prefers an event over one with more rows. *)
Theorem centroids_most_frequent_first (df : DataFrame) (m : Z) :
  StronglySorted
    (fun a b => (sample_count (snd b) <= sample_count (snd a))%nat)
    (compute_event_centroids df m).
Proof.
  rewrite compute_event_centroids_map. unfold well_defined_events.
  pose proof (StronglySorted_filter count_ge
                (fun en => (m <=? Z.of_nat (snd en))%Z) (value_counts df)
                (sort_desc_sorted _)) as Hs.
  assert (Hc : Forall (fun en => snd en = count_event (fst en) df)
                 (filter (fun en => (m <=? Z.of_nat (snd en))%Z) (value_counts df))).
  { rewrite Forall_forall. intros [e n] Hin.
    apply filter_In in Hin as [Hin _].
    apply value_counts_in in Hin as [_ ->]. reflexivity. }
  induction Hs as [| x t Ht IH Hx]; cbn [map]; [constructor |].
  inversion Hc as [| ? ? Hcx Hct]; subst.
  constructor; [now apply IH |].
  rewrite Forall_forall in *. intros y Hy.
  apply in_map_iff in Hy as (e & <- & He).
  apply in_map_iff in He as (z & <- & Hz).
  cbn [snd].
  change (sample_count (make_centroid (event_rows df (fst z))))
    with (count_event (fst z) df).
  change (sample_count (make_centroid (event_rows df (fst x))))
    with (count_event (fst x) df).
  rewrite <- Hcx, <- (Hct z Hz). apply (Hx z Hz).
Qed.

(** ** fit *)

Lemma fit_eval (df : DataFrame) (self : EventSimilarityPredictor) :
  eval (fit df) self =
  match StandardScaler_fit (map (fun r => temporal (feat r)) df) with
  | Ok _ => Ok tt
  | Raise ex => Raise ex
  end.
Proof.
  unfold eval, fit, mbind, set_centroids, lift, set_scaler. simpl.
  destruct (StandardScaler_fit _); reflexivity.
Qed.

Lemma StandardScaler_fit_nonempty (X : list R3) :
  X <> [] -> exists p, StandardScaler_fit X = Ok p.
Proof. destruct X; [congruence |]. intros _. eexists. reflexivity. Qed.

(** X16: [fit] on a non-empty table succeeds, leaves a fitted normalizer
    and the threshold it found, and overwrites whatever an earlier [fit] had
    left: the state after a refit is the state after a first fit. *)
Theorem refit_forgets (df df0 : DataFrame) (self : EventSimilarityPredictor) :
  df <> [] ->
  eval (fit df) self = Ok tt /\
  scaler (exec (fit df) self) <> None /\
  distance_threshold (exec (fit df) self) = distance_threshold self /\
  exec (fit df) (exec (fit df0) self) = exec (fit df) self.
Proof.
  intros Hne.
  destruct (StandardScaler_fit_nonempty (map (fun r => temporal (feat r)) df))
    as [p Hp].
  { intros H. apply map_eq_nil in H. contradiction. }
  rewrite fit_eval, !fit_run, Hp. cbn [scaler distance_threshold].
  repeat split. discriminate.
Qed.

Lemma refit_forgets_witness :
  train_twins <> [] /\
  exec (fit train_twins) (exec (fit train_no_coords) (init DISTANCE_THRESHOLD))
  = exec (fit train_twins) (init DISTANCE_THRESHOLD).
Proof.
  assert (H : train_twins <> []) by discriminate.
  split; [exact H |].
  apply (refit_forgets train_twins train_no_coords (init DISTANCE_THRESHOLD) H).
Defined.

(** X17: [fit] on an empty table raises [ValueError] from the normalizer,
    but only after the centroids have been replaced by an empty mapping and
    the normalizer has been reset: a predictor that was fitted before is left
    without centroids and with an unfitted normalizer.  The threshold keeps
    its value, and every later [predict] answers [(None, inf, 0.0)]. *)
Theorem fit_empty_table (self : EventSimilarityPredictor) (q : features) :
  eval (fit []) self = Raise ValueError /\
  centroids (exec (fit []) self) = [] /\
  scaler (exec (fit []) self) = None /\
  distance_threshold (exec (fit []) self) = distance_threshold self /\
  eval (predict q) (exec (fit []) self) = Ok (None, DInf, 0).
Proof.
  rewrite fit_eval, fit_run, predict_eval.
  cbn [StandardScaler_fit map centroids scaler distance_threshold
       compute_event_centroids].
  split; [reflexivity |]. split; [reflexivity |]. split; [reflexivity |].
  split; reflexivity.
Qed.

Lemma filter_all_false {A} (f : A -> bool) (l : list A) :
  (forall x, In x l -> f x = false) -> filter f l = [].
Proof.
  induction l as [| x t IH]; simpl; intros H; [reflexivity |].
  rewrite (H x (or_introl eq_refl)). apply IH. intros y Hy. apply H. now right.
Qed.

(** X18: when no event of the training table has three rows, [fit]
    leaves an empty centroid mapping and every query is answered
    [(None, inf, 0.0)]. *)
Theorem fit_without_support (df : DataFrame) (t : R) (q : features) :
  (forall e, (count_event e df < 3)%nat) ->
  centroids (fitted df t) = [] /\
  eval (predict q) (fitted df t) = Ok (None, DInf, 0).
Proof.
  intros H.
  assert (Hc : centroids (fitted df t) = []).
  { rewrite fitted_centroids. unfold compute_event_centroids, well_defined_events.
    rewrite filter_all_false; [reflexivity |].
    intros [e n] Hin. apply value_counts_in in Hin as [_ ->]. cbn [snd].
    apply Z.leb_gt. specialize (H e). unfold MIN_SAMPLES_PER_EVENT. lia. }
  split; [exact Hc |]. now rewrite predict_eval, Hc.
Qed.

(** ** predict *)

Lemma nearest_le_acc fv sc items acc res :
  nearest fv sc items acc = Ok res ->
  forall a, fst acc = DFin a -> exists r, fst res = DFin r /\ r <= a.
Proof.
  revert acc. induction items as [| [e c] items IH]; intros acc H a Ha.
  - simpl in H. injection H as <-. exists a. split; [exact Ha | lra].
  - simpl in H. apply rbind_ok in H as (d & Hd & H).
    destruct (dist_lt d (fst acc)) eqn:Hlt.
    + rewrite Ha in Hlt. apply dist_lt_fin_inv in Hlt as (x & -> & Hx).
      destruct (IH _ H x eq_refl) as (r & Hr & Hle).
      exists r. split; [exact Hr | lra].
    + exact (IH _ H a Ha).
Qed.

Lemma nearest_le_items fv sc items acc res :
  nearest fv sc items acc = Ok res ->
  fst acc <> DNaN ->
  forall e c d', In (e, c) items ->
    custom_distance fv (centroid_vector c) sc = Ok (DFin d') ->
    exists r, fst res = DFin r /\ r <= d'.
Proof.
  revert acc. induction items as [| [e0 c0] items IH];
    intros acc H Hnan e c d' Hin Hd'; [destruct Hin |].
  simpl in H. apply rbind_ok in H as (d & Hd & H).
  destruct Hin as [Heq | Hin].
  - injection Heq as -> ->. rewrite Hd in Hd'. injection Hd' as ->.
    destruct (dist_lt (DFin d') (fst acc)) eqn:Hlt.
    + exact (nearest_le_acc _ _ _ _ _ H d' eq_refl).
    + destruct (fst acc) as [a | |] eqn:Ea; [| congruence | discriminate].
      simpl in Hlt. destruct (Rlt_dec d' a); [discriminate |].
      destruct (nearest_le_acc _ _ _ _ _ H a Ea) as (r & Hr & Hle).
      exists r. split; [exact Hr | lra].
  - destruct (dist_lt d (fst acc)) eqn:Hlt.
    + apply (IH _ H) with (e := e) (c := c); try assumption.
      simpl. destruct d; [discriminate | | discriminate].
      destruct (fst acc); discriminate.
    + apply (IH _ H) with (e := e) (c := c); assumption.
Qed.

(** X19: whenever [predict] returns, the distance it reports is not
    greater than the finite distance of any stored centroid, and a returned
    event is a key of the mapping whose own distance is the reported one. *)
Theorem predict_distance_is_minimum (self : EventSimilarityPredictor)
    (q : features) (ev : option string) (d : dist) (conf : R) :
  eval (predict q) self = Ok (ev, d, conf) ->
  (forall e c d', In (e, c) (centroids self) ->
     centroid_distance self q c = Ok (DFin d') ->
     exists r, d = DFin r /\ r <= d') /\
  (forall e, ev = Some e ->
     exists c, In (e, c) (centroids self) /\ centroid_distance self q c = Ok d).
Proof.
  intros H. split.
  - rewrite predict_eval in H.
    apply rbind_ok in H as ([m n] & Hn & Hg). cbn [fst snd] in Hg.
    assert (Hd : d = m).
    { unfold gate in Hg. destruct m as [r | |];
        [destruct (Rle_dec r (distance_threshold self)) |..];
        now injection Hg as _ <- _. }
    subst d. intros e c d' Hin Hd'.
    exact (nearest_le_items _ _ _ _ _ Hn ltac:(discriminate) e c d' Hin Hd').
  - intros e ->. apply predict_admitted in H as (c & r & Hin & Hd & -> & _).
    now exists c.
Qed.

Lemma nearest_raise_inv fv p items acc ex :
  nearest fv (Some p) items acc = Raise ex ->
  ex = TypeError /\
  exists e c, In (e, c) items /\
              custom_distance fv (centroid_vector c) (Some p) = Raise TypeError.
Proof.
  revert acc. induction items as [| [e c] items IH]; intros acc H;
    [discriminate |].
  simpl in H.
  destruct (custom_distance fv (centroid_vector c) (Some p)) as [d | ex'] eqn:Hd.
  - cbn [rbind] in H.
    destruct (dist_lt d (fst acc)); apply IH in H as (-> & e' & c' & Hin & Hc);
      (split; [reflexivity |]); exists e', c'; (split; [now right | exact Hc]).
  - cbn [rbind] in H. injection H as <-.
    apply custom_distance_raise_inv in Hd as Hd'. destruct Hd' as [-> _].
    split; [reflexivity |]. exists e, c. split; [now left | exact Hd].
Qed.

Lemma nearest_raises fv p items acc e c :
  In (e, c) items ->
  custom_distance fv (centroid_vector c) (Some p) = Raise TypeError ->
  nearest fv (Some p) items acc = Raise TypeError.
Proof.
  revert acc. induction items as [| [e0 c0] items IH]; intros acc Hin Hc;
    [destruct Hin |].
  simpl.
  destruct (custom_distance fv (centroid_vector c0) (Some p)) as [d | ex] eqn:Hd.
  - cbn [rbind]. destruct Hin as [Heq | Hin].
    + injection Heq as -> ->. congruence.
    + destruct (dist_lt d (fst acc)); now apply IH.
  - cbn [rbind]. apply custom_distance_raise_inv in Hd as [-> _]. reflexivity.
Qed.

(** X21: under a fitted normalizer a query without latitude ([nan]) never
    makes [predict] raise, whatever the centroids hold, [None] included: no
    coordinate is looked at.  The reported distance is never [nan], and
    without centroids the answer is [(None, inf, 0.0)]. *)
Theorem predict_without_latitude_returns (self : EventSimilarityPredictor)
    (q : features) (p : scaler_params) :
  scaler self = Some p ->
  start_lat q = NaN ->
  exists ev d conf,
    eval (predict q) self = Ok (ev, d, conf) /\
    d <> DNaN /\
    (centroids self = [] -> ev = None /\ d = DInf /\ conf = 0).
Proof.
  intros Hs Hq.
  assert (Hall : Forall (fun ec => exists d,
                   centroid_distance self q (snd ec) = Ok (DFin d))
                   (centroids self)).
  { rewrite Forall_forall. intros [e c] _. unfold centroid_distance.
    rewrite Hs, custom_distance_nan_left by exact Hq. eexists. reflexivity. }
  destruct (centroids self) as [| ec rest] eqn:Hcs.
  - exists None, DInf, 0. rewrite predict_eval, Hcs.
    split; [reflexivity |]. split; [discriminate | intros _; repeat split].
  - destruct (first_min_exists q (scaler self) (centroids self))
      as (before & e & c & after & d & Heq & Hb & Hc & Ha).
    { rewrite Hcs. discriminate. }
    { rewrite Hcs. exact Hall. }
    pose proof (predict_first_min self q before after e c d Heq Hb Hc Ha) as Hp.
    unfold gate in Hp.
    destruct (Rle_dec d (distance_threshold self)).
    + do 3 eexists. split; [exact Hp |]. split; discriminate.
    + do 3 eexists. split; [exact Hp |]. split; discriminate.
Qed.

(** X22: under a fitted normalizer and for a query with coordinates, a
    [TypeError] from [predict] means that some stored centroid has [None]
    as latitude, or a latitude and [None] as longitude; and with such a
    centroid in the mapping [predict] returns nothing: it raises.  It raises
    nothing besides [TypeError] and the [ValueError] of the geo-distance. *)
Theorem predict_type_error_cause (self : EventSimilarityPredictor)
    (q : features) (p : scaler_params) (lat : R) :
  scaler self = Some p ->
  start_lat q = Num lat ->
  start_lng q <> PyNone ->
  let holds_none :=
    exists e c, In (e, c) (centroids self) /\
                (c_start_lat c = PyNone \/
                 (exists b, c_start_lat c = Num b /\ c_start_lng c = PyNone)) in
  (eval (predict q) self = Raise TypeError -> holds_none) /\
  (holds_none ->
   exists ex, eval (predict q) self = Raise ex /\
              (ex = TypeError \/ ex = ValueError)) /\
  (forall ex, eval (predict q) self = Raise ex ->
              ex = TypeError \/ ex = ValueError).
Proof.
  intros Hs Hlat Hlng holds_none. unfold holds_none.
  assert (Hcd : forall c,
     custom_distance q (centroid_vector c) (Some p) = Raise TypeError <->
     (c_start_lat c = PyNone \/
      (exists b, c_start_lat c = Num b /\ c_start_lng c = PyNone))).
  { intros c. destruct (c_start_lat c) as [| | b] eqn:E.
    - rewrite (custom_distance_none_right p q _ lat) by assumption. tauto.
    - rewrite (custom_distance_nan_right p q _ lat) by assumption.
      split; [discriminate |]. intros [H | (b & H & _)]; discriminate.
    - rewrite (custom_distance_both p q _ lat b) by assumption.
      cbn [centroid_vector start_lng]. unfold haversine_distance.
      destruct (start_lng q) as [| | g1]; [congruence | |];
        destruct (c_start_lng c) as [| | g2]; cbn [radians rbind];
        try rewrite haversine_rad_ok; cbn [rbind];
        (split; [try discriminate; intros _; right; now exists b
                | try reflexivity; intros [H | (b' & _ & H)]; discriminate]). }
  rewrite predict_eval, Hs. split; [| split].
  - intros H.
    destruct (nearest q (Some p) (centroids self) (DInf, None)) as [r | ex] eqn:Hn;
      [discriminate |].
    apply nearest_raise_inv in Hn as (_ & e & c & Hin & Hc).
    exists e, c. split; [exact Hin | now apply Hcd].
  - intros (e & c & Hin & Hc). apply Hcd in Hc.
    exists TypeError. rewrite (nearest_raises q p _ _ e c Hin Hc).
    split; [reflexivity | now left].
  - intros ex H.
    destruct (nearest q (Some p) (centroids self) (DInf, None)) as [r | ex'] eqn:Hn;
      [discriminate |].
    cbn [rbind] in H. injection H as <-.
    apply nearest_raise_inv in Hn as [-> _]. now left.
Qed.

(** X20: the two shapes of a prediction.  Either no event is returned,
    the confidence is 0 and the distance is [inf] or beyond the threshold; or
    an event of the mapping is returned, at a distance between 0 and the
    threshold, with confidence [1 - distance / threshold]. *)
Theorem predict_result_shape (self : EventSimilarityPredictor) (q : features)
    (ev : option string) (d : dist) (conf : R) :
  eval (predict q) self = Ok (ev, d, conf) ->
  (ev = None /\ conf = 0 /\
   (d = DInf \/ exists r, d = DFin r /\ distance_threshold self < r)) \/
  (exists e r, ev = Some e /\ d = DFin r /\
               0 <= r <= distance_threshold self /\
               conf = 1 - r / distance_threshold self /\
               In e (keys (centroids self))).
Proof.
  intros H. destruct ev as [e |].
  - right. apply predict_admitted in H as (c & r & Hin & Hd & -> & Hle & ->).
    exists e, r. apply custom_distance_nonneg in Hd.
    repeat split; try assumption.
    unfold keys. apply in_map_iff. now exists (e, c).
  - left. rewrite predict_eval in H.
    apply rbind_ok in H as ([m n] & Hn & Hg). cbn [fst snd] in Hg.
    pose proof (nearest_search_state q (scaler self) (centroids self)
                  (centroids self) (DInf, None) (m, n)
                  (incl_refl _) (or_introl eq_refl) Hn) as Hs.
    destruct Hs as [Hs | (e0 & c0 & d0 & _ & _ & Hs)]; injection Hs as -> ->;
      unfold gate in Hg.
    + injection Hg as <- <-. repeat split. now left.
    + destruct (Rle_dec d0 (distance_threshold self)) as [Hle | Hgt];
        [discriminate |].
      injection Hg as <- <-. repeat split. right. exists d0. split; [reflexivity | lra].
Qed.

Lemma nearest_all_nan fv sc items acc :
  Forall (fun ec => custom_distance fv (centroid_vector (snd ec)) sc = Ok DNaN)
         items ->
  nearest fv sc items acc = Ok acc.
Proof.
  induction 1 as [| [e c] items Hx _ IH]; simpl; [reflexivity |].
  simpl in Hx. rewrite Hx. exact IH.
Qed.

(** X23: a query with a latitude and a [nan] longitude is at a [nan]
    distance from every centroid that has coordinates; the search skips them
    all and [predict] answers [(None, inf, 0.0)] although centroids exist. *)
Theorem predict_nan_longitude_rejects (self : EventSimilarityPredictor)
    (q : features) (p : scaler_params) (lat : R) :
  scaler self = Some p ->
  start_lat q = Num lat -> start_lng q = NaN ->
  Forall (fun ec => has_coords (centroid_vector (snd ec))) (centroids self) ->
  eval (predict q) self = Ok (None, DInf, 0).
Proof.
  intros Hs Hlat Hlng Hall. rewrite predict_eval, Hs.
  rewrite nearest_all_nan; [reflexivity |].
  eapply Forall_impl; [| exact Hall].
  intros [e c] (a & b & Ha & Hb). cbn [snd] in *.
  rewrite (custom_distance_both p q _ lat a Hlat Ha), Hlng, Hb. reflexivity.
Qed.

(** ** predict_batch *)

(** X24: [predict_batch] returns a table exactly when [predict] returns
    on every row; the table then has one row per input row, in the same
    order, holding that row's own prediction and event name. *)
Theorem predict_batch_pointwise (self : EventSimilarityPredictor)
    (df : DataFrame) (ps : list prediction_row) :
  eval (predict_batch df) self = Ok ps <->
  Forall2 (fun r pr =>
             eval (predict (feat r)) self
             = Ok (predicted_event pr, distance pr, confidence pr) /\
             actual_event pr = event_name r) df ps.
Proof.
  revert ps. induction df as [| r rest IH]; intros ps.
  - split.
    + intros H. injection H as <-. constructor.
    + intros H. inversion H. reflexivity.
  - rewrite predict_batch_cons. split.
    + intros H. apply rbind_ok in H as (x & Hx & H).
      apply rbind_ok in H as (ps' & Hps & H). injection H as <-.
      constructor; [| now apply IH].
      destruct x as [[ev d] c]. split; [exact Hx | reflexivity].
    + intros H. inversion H as [| ? pr ? ps' [Hp Ha] Hrest]; subst.
      rewrite Hp. cbn [rbind]. apply IH in Hrest. rewrite Hrest. cbn [rbind].
      destruct pr as [ev d c a]. cbn in *. now subst a.
Qed.

(** X25: [predict_batch] raises exactly when [predict] raises on some
    row, and the exception is that of the first such row: one failing row
    loses the whole batch. *)
Theorem predict_batch_first_error (self : EventSimilarityPredictor)
    (df : DataFrame) (ex : exn) :
  eval (predict_batch df) self = Raise ex <->
  exists before r after,
    df = before ++ r :: after /\
    Forall (fun r' => exists pr, eval (predict (feat r')) self = Ok pr) before /\
    eval (predict (feat r)) self = Raise ex.
Proof.
  induction df as [| r rest IH].
  - split; [discriminate |].
    intros (before & r & after & H & _). destruct before; discriminate.
  - rewrite predict_batch_cons. split.
    + intros H.
      destruct (eval (predict (feat r)) self) as [x | ex'] eqn:Hx.
      * cbn [rbind] in H.
        destruct (eval (predict_batch rest) self) as [ps | ex'] eqn:Hr;
          [discriminate |].
        cbn [rbind] in H. injection H as ->.
        destruct (proj1 IH eq_refl) as (before & r' & after & -> & Hb & Hr').
        exists (r :: before), r', after.
        split; [reflexivity |]. split; [| exact Hr'].
        constructor; [now exists x | exact Hb].
      * cbn [rbind] in H. injection H as ->.
        exists [], r, rest. split; [reflexivity |]. split; [constructor | exact Hx].
    + intros (before & r' & after & Heq & Hb & Hr').
      destruct before as [| b before].
      * injection Heq as -> ->. now rewrite Hr'.
      * injection Heq as -> ->.
        inversion Hb as [| ? ? (pr & Hpr) Hb']; subst.
        rewrite Hpr. cbn [rbind].
        assert (Hrest : eval (predict_batch (before ++ r' :: after)) self = Raise ex).
        { apply IH. exists before, r', after. repeat split; assumption. }
        now rewrite Hrest.
Qed.

(** ** Counts of the sweep *)

Lemma filter_length_le {A} (f : A -> bool) (l : list A) :
  (List.length (filter f l) <= List.length l)%nat.
Proof.
  induction l as [| x t IH]; simpl; [lia |]. destruct (f x); simpl; lia.
Qed.

Lemma filter_partition_length {A} (f : A -> bool) (l : list A) :
  (List.length (filter f l) + List.length (filter (fun x => negb (f x)) l)
   = List.length l)%nat.
Proof.
  induction l as [| x t IH]; simpl; [lia |]. destruct (f x); simpl; lia.
Qed.

(** ** Witnesses *)

Lemma count_event_le_length (e : string) (df : DataFrame) :
  (count_event e df <= List.length df)%nat.
Proof. apply filter_length_le. Qed.

Lemma fit_without_support_witness :
  (forall e, (count_event e train_sparse < 3)%nat) /\
  centroids (fitted train_sparse DISTANCE_THRESHOLD) = [] /\
  eval (predict query_with_coords) (fitted train_sparse DISTANCE_THRESHOLD)
  = Ok (None, DInf, 0).
Proof.
  assert (H : forall e, (count_event e train_sparse < 3)%nat).
  { intros e. pose proof (count_event_le_length e train_sparse) as Hl.
    change (List.length train_sparse) with 2%nat in Hl. lia. }
  split; [exact H |].
  exact (fit_without_support train_sparse DISTANCE_THRESHOLD query_with_coords H).
Defined.

Lemma twins_all_finite (t : R) :
  Forall (fun ec => exists d,
            centroid_distance (fitted train_twins t) query_on_twins (snd ec)
            = Ok (DFin d))
         (centroids (fitted train_twins t)).
Proof.
  rewrite Forall_forall. intros ec Hin. rewrite twins_state in Hin.
  cbn [centroids In] in Hin.
  destruct Hin as [<- | [<- | []]]; exists 0; apply twin_distance_on.
Qed.

Lemma predict_returns_nearest_witness :
  centroids (fitted train_twins DISTANCE_THRESHOLD) <> [] /\
  exists e c d,
    In (e, c) (centroids (fitted train_twins DISTANCE_THRESHOLD)) /\
    centroid_distance (fitted train_twins DISTANCE_THRESHOLD) query_on_twins c
    = Ok (DFin d).
Proof.
  assert (Hne : centroids (fitted train_twins DISTANCE_THRESHOLD) <> [])
    by (rewrite twins_state; discriminate).
  split; [exact Hne |].
  destruct (predict_returns_nearest (fitted train_twins DISTANCE_THRESHOLD)
              query_on_twins Hne (twins_all_finite DISTANCE_THRESHOLD))
    as (e & c & d & Hin & Hd & _).
  now exists e, c, d.
Defined.

Lemma twins_predict_default :
  eval (predict query_on_twins) (fitted train_twins DISTANCE_THRESHOLD)
  = Ok (Some "A"%string, DFin 0, 1 - 0 / DISTANCE_THRESHOLD).
Proof. apply twins_predict_on. unfold DISTANCE_THRESHOLD. lra. Qed.

Lemma predict_distance_is_minimum_witness :
  eval (predict query_on_twins) (fitted train_twins DISTANCE_THRESHOLD)
  = Ok (Some "A"%string, DFin 0, 1 - 0 / DISTANCE_THRESHOLD) /\
  exists c, In ("A"%string, c) (centroids (fitted train_twins DISTANCE_THRESHOLD)) /\
            centroid_distance (fitted train_twins DISTANCE_THRESHOLD)
              query_on_twins c = Ok (DFin 0).
Proof.
  split; [exact twins_predict_default |].
  exact (proj2 (predict_distance_is_minimum _ _ _ _ _ twins_predict_default)
           "A"%string eq_refl).
Defined.

Lemma predict_result_shape_witness :
  eval (predict query_on_twins) (fitted train_twins DISTANCE_THRESHOLD)
  = Ok (Some "A"%string, DFin 0, 1 - 0 / DISTANCE_THRESHOLD) /\
  exists e r, Some "A"%string = Some e /\ DFin 0 = DFin r /\
              In e (keys (centroids (fitted train_twins DISTANCE_THRESHOLD))).
Proof.
  split; [exact twins_predict_default |].
  destruct (predict_result_shape _ _ _ _ _ twins_predict_default)
    as [(H & _) | (e & r & He & Hr & _ & _ & Hin)]; [discriminate |].
  now exists e, r.
Defined.

Lemma predict_without_latitude_returns_witness :
  let self := fitted train_no_coords DISTANCE_THRESHOLD in
  (exists p, scaler self = Some p) /\
  start_lat query_without_coords = NaN /\
  exists ev d conf,
    eval (predict query_without_coords) self = Ok (ev, d, conf) /\ d <> DNaN.
Proof.
  intros self.
  assert (Hs : exists p, scaler self = Some p) by (eexists; reflexivity).
  split; [exact Hs |]. split; [reflexivity |].
  destruct Hs as [p Hp].
  destruct (predict_without_latitude_returns self query_without_coords p Hp
              eq_refl) as (ev & d & conf & H & Hd & _).
  exists ev, d, conf. split; [exact H | exact Hd].
Defined.

Lemma predict_type_error_cause_witness :
  let self := fitted train_no_coords DISTANCE_THRESHOLD in
  (exists p, scaler self = Some p) /\
  start_lat query_with_coords = Num 0 /\
  start_lng query_with_coords <> PyNone /\
  exists ex, eval (predict query_with_coords) self = Raise ex /\
             (ex = TypeError \/ ex = ValueError).
Proof.
  intros self.
  assert (Hs : exists p, scaler self = Some p) by (eexists; reflexivity).
  assert (Hg : start_lng query_with_coords <> PyNone) by discriminate.
  split; [exact Hs |]. split; [reflexivity |]. split; [exact Hg |].
  destruct Hs as [p Hp].
  destruct (predict_type_error_cause self query_with_coords p 0 Hp eq_refl Hg)
    as (_ & Hraise & _).
  apply Hraise.
  exists "A"%string, (make_centroid (event_rows train_no_coords "A"%string)).
  split; [left; reflexivity | left; reflexivity].
Defined.

Lemma predict_nan_longitude_rejects_witness :
  let self := fitted train_twins DISTANCE_THRESHOLD in
  scaler self = Some twin_scaler /\
  start_lat query_nan_longitude = Num 0 /\
  start_lng query_nan_longitude = NaN /\
  centroids self <> [] /\
  eval (predict query_nan_longitude) self = Ok (None, DInf, 0).
Proof.
  intros self.
  assert (Hs : scaler self = Some twin_scaler)
    by (unfold self; now rewrite twins_state).
  split; [exact Hs |]. split; [reflexivity |]. split; [reflexivity |].
  split; [unfold self; rewrite twins_state; discriminate |].
  apply (predict_nan_longitude_rejects self query_nan_longitude twin_scaler 0 Hs
           eq_refl eq_refl).
  unfold self. rewrite twins_state. cbn [centroids].
  repeat constructor; eexists; eexists; split; reflexivity.
Defined.

(** ** The calibration script *)

Lemma ratio_unit (c n : nat) : (c <= n)%nat -> 0 <= INR c / INR n <= 1.
Proof.
  intros H. destruct n as [| n].
  - assert (c = 0)%nat by lia. subst. simpl. unfold Rdiv. rewrite Rmult_0_l. lra.
  - assert (Hn : 0 < INR (S n)) by (apply lt_0_INR; lia).
    assert (Hc : 0 <= INR c) by apply pos_INR.
    assert (Hcn : INR c <= INR (S n)) by now apply le_INR.
    assert (Hi : 0 < / INR (S n)) by now apply Rinv_0_lt_compat.
    assert (H1 : INR (S n) * / INR (S n) = 1) by (apply Rinv_r; lra).
    unfold Rdiv. split; nra.
Qed.

Lemma method_run {A} (m : M A) (self : EventSimilarityPredictor) :
  m self = (eval m self, exec m self).
Proof. unfold eval, exec. now destruct (m self). Qed.

Lemma sweep_step_run (train test : DataFrame) (t : R) :
  sweep_step train test t =
  match StandardScaler_fit (map (fun r => temporal (feat r)) train) with
  | Ok _ => (eval (predict_batch test) (fitted train t), fitted train t)
  | Raise ex => (Raise ex, fitted train t)
  end.
Proof.
  unfold sweep_step, mbind, fitted.
  rewrite (method_run (fit train) (init t)), fit_eval.
  destruct (StandardScaler_fit _) as [p | ex]; [| reflexivity].
  now rewrite method_run, predict_batch_exec.
Qed.

Lemma predict_batch_actual_events (self : EventSimilarityPredictor)
    (df : DataFrame) (ps : list prediction_row) :
  eval (predict_batch df) self = Ok ps ->
  map actual_event ps = map event_name df.
Proof.
  revert ps. induction df as [| r rest IH]; intros ps H.
  - injection H as <-. reflexivity.
  - rewrite predict_batch_cons in H.
    apply rbind_ok in H as (x & _ & H).
    apply rbind_ok in H as (ps' & Hps & H). injection H as <-.
    cbn [map actual_event]. now rewrite (IH ps' Hps).
Qed.

Lemma known_rows_iff (known : list string) (ps : list prediction_row)
    (names : list string) :
  map actual_event ps = names ->
  (filter (is_known known) ps <> [] <-> exists n, In n names /\ In n known).
Proof.
  intros <-. split.
  - intros H. destruct (filter (is_known known) ps) as [| p t] eqn:E;
      [congruence |].
    assert (Hp : In p (filter (is_known known) ps)) by (rewrite E; now left).
    apply filter_In in Hp as [Hin Hk]. unfold is_known in Hk.
    destruct (in_dec string_dec (actual_event p) known); [| discriminate].
    exists (actual_event p). split; [now apply in_map | assumption].
  - intros (n & Hn & Hk) H. apply in_map_iff in Hn as (p & <- & Hp).
    assert (Hf : In p (filter (is_known known) ps)).
    { apply filter_In. split; [exact Hp |]. unfold is_known.
      destruct (in_dec string_dec (actual_event p) known); [reflexivity | contradiction]. }
    rewrite H in Hf. destruct Hf.
Qed.

Lemma has_known_row_iff (train test : DataFrame) (t : R)
    (ps : list prediction_row) :
  eval (predict_batch test) (fitted train t) = Ok ps ->
  (filter (is_known (keys (centroids (fitted train t)))) ps <> [] <->
   has_known_row train test).
Proof.
  intros H. apply predict_batch_actual_events in H.
  rewrite (known_rows_iff _ ps _ H), fitted_centroids. unfold has_known_row.
  split.
  - intros (n & Hn & Hk). apply in_map_iff in Hn as (r & <- & Hr). now exists r.
  - intros (r & Hr & Hk). exists (event_name r). split; [now apply in_map | exact Hk].
Qed.

Lemma length_pos_iff {A} (l : list A) :
  (0 <? List.length l)%nat = true <-> l <> [].
Proof.
  destruct l; simpl; split; try congruence; try discriminate; reflexivity.
Qed.

Lemma sweep_iteration_done (train test : DataFrame) (env env' : sweep_env)
    (t : R) (rep : sweep_report) :
  has_known_row train test \/ env_correct env = None ->
  sweep_iteration train test env t = Done (rep, env') ->
  report_sound rep /\ rep_threshold rep = t /\ has_known_row train test.
Proof.
  intros Hinv. unfold sweep_iteration. rewrite sweep_step_run.
  destruct (StandardScaler_fit _) as [p | ex]; [| discriminate].
  destruct (eval (predict_batch test) (fitted train t)) as [ps | ex] eqn:Hps;
    [| discriminate].
  destruct ps as [| p0 ps0]; [discriminate |].
  cbv beta iota zeta.
  remember (p0 :: ps0) as preds eqn:Epreds.
  set (known := keys (centroids (fitted train t))).
  pose proof (has_known_row_iff train test t preds Hps) as Hk. fold known in Hk.
  pose proof (filter_partition_length (is_known known) preds) as Hpart.
  pose proof (filter_length_le
                (fun p => option_string_eqb (predicted_event p) (actual_event p))
                (filter (is_known known) preds)) as Hc.
  pose proof (filter_length_le
                (fun p => match predicted_event p with
                          | None => true | Some _ => false end)
                (filter (fun p => negb (is_known known p)) preds)) as Hr.
  fold (correct known preds) in Hc. fold (correct_rejected known preds) in Hr.
  cbv zeta.
  destruct (0 <? List.length (filter (is_known known) preds))%nat eqn:Hkn.
  - assert (Hrow : has_known_row train test)
      by (apply Hk; now apply length_pos_iff).
    apply Nat.ltb_lt in Hkn.
    destruct (0 <? List.length
                (filter (fun p => negb (is_known known p)) preds))%nat eqn:Hun;
      cbn [env_correct]; intros H; injection H as <- _;
      (split; [| split; [reflexivity | exact Hrow]]);
      unfold report_sound;
      cbn [rep_known rep_unknown rep_total rep_correct rep_rejected
           rep_overall_correct rep_accuracy rep_reject_accuracy
           rep_overall_accuracy];
      repeat split; try lia;
      try (apply ratio_unit; lia); try lra.
  - assert (Hempty : ~ has_known_row train test).
    { intros Hrow. apply Hk in Hrow. apply length_pos_iff in Hrow. congruence. }
    destruct Hinv as [Hrow | Hnone]; [contradiction |].
    destruct (0 <? List.length
                (filter (fun p => negb (is_known known p)) preds))%nat;
      cbn [env_correct]; rewrite Hnone; discriminate.
Qed.

(** X26: when the sweep runs to its end from unbound variables, it
    prints one report per threshold, in order, and every report is sound: the
    known and unknown rows add up to the total, the test table has a known
    row, each count is within its denominator, the overall count is the sum
    of the two, and the three accuracies lie between 0 and 1. *)
Theorem sweep_reports_sound (train test : DataFrame) (ths : list R)
    (reps : list sweep_report) :
  sweep train test ths unbound = Done reps ->
  map rep_threshold reps = ths /\ Forall report_sound reps.
Proof.
  assert (Hinv : has_known_row train test \/ env_correct unbound = None)
    by now right.
  revert Hinv. generalize unbound. revert reps.
  induction ths as [| t rest IH]; intros reps env Hinv H.
  - injection H as <-. split; [reflexivity | constructor].
  - cbn [sweep] in H.
    destruct (sweep_iteration train test env t) as [[rep env'] | e] eqn:Hit;
      [| discriminate].
    destruct (sweep train test rest env') as [reps' | e] eqn:Hrest;
      [| discriminate].
    injection H as <-.
    destruct (sweep_iteration_done _ _ _ _ _ _ Hinv Hit) as (Hs & Ht & Hrow).
    destruct (IH reps' env' (or_introl Hrow) Hrest) as [Hm Hall].
    split; [cbn [map]; now rewrite Ht, Hm | now constructor].
Qed.

(** X27: how an iteration of the sweep fails.  An empty training table
    gives the [ValueError] of [fit]; an empty test table gives a [KeyError];
    an exception of [predict_batch] passes through; and when no test row
    belongs to a retained event while [correct] is still unbound, the
    iteration ends in a [NameError]. *)
Theorem sweep_failures (train test : DataFrame) (env : sweep_env) (t : R) :
  (train = [] ->
   sweep_iteration train test env t = Fail (Inner ValueError)) /\
  (train <> [] -> test = [] ->
   sweep_iteration train test env t = Fail KeyError) /\
  (forall ex, train <> [] ->
     eval (predict_batch test) (fitted train t) = Raise ex ->
     sweep_iteration train test env t = Fail (Inner ex)) /\
  (forall ps, train <> [] -> test <> [] ->
     eval (predict_batch test) (fitted train t) = Ok ps ->
     ~ has_known_row train test ->
     env_correct env = None ->
     sweep_iteration train test env t = Fail NameError).
Proof.
  unfold sweep_iteration. rewrite sweep_step_run.
  split; [| split; [| split]].
  - intros ->. reflexivity.
  - intros Hne ->.
    destruct (StandardScaler_fit_nonempty (map (fun r => temporal (feat r)) train))
      as [p ->]; [intros H; apply map_eq_nil in H; contradiction |].
    reflexivity.
  - intros ex Hne Hex.
    destruct (StandardScaler_fit_nonempty (map (fun r => temporal (feat r)) train))
      as [p ->]; [intros H; apply map_eq_nil in H; contradiction |].
    now rewrite Hex.
  - intros ps Hne Htest Hps Hrow Hnone.
    destruct (StandardScaler_fit_nonempty (map (fun r => temporal (feat r)) train))
      as [p ->]; [intros H; apply map_eq_nil in H; contradiction |].
    rewrite Hps.
    destruct ps as [| p0 ps0].
    + apply predict_batch_actual_events in Hps.
      destruct test; [congruence | discriminate].
    + cbv beta iota zeta. remember (p0 :: ps0) as preds eqn:Epreds.
      pose proof (has_known_row_iff train test t preds Hps) as Hk.
      destruct (0 <? List.length
                  (filter (is_known (keys (centroids (fitted train t)))) preds))%nat
        eqn:Hkn.
      * exfalso. apply Hrow, Hk. now apply length_pos_iff.
      * destruct (0 <? List.length
                    (filter (fun p1 => negb (is_known
                       (keys (centroids (fitted train t))) p1)) preds))%nat;
          cbv beta iota; cbn [env_correct]; now rewrite Hnone.
Qed.

Lemma twins_batch_single (t : R) (name : string) :
  0 <= t ->
  eval (predict_batch [mk_row 100 10 7 NaN NaN name]) (fitted train_twins t)
  = Ok [{| predicted_event := Some "A"%string; distance := DFin 0;
           confidence := 1 - 0 / t; actual_event := name |}].
Proof.
  intros Ht. rewrite predict_batch_cons.
  change (feat (mk_row 100 10 7 NaN NaN name)) with query_on_twins.
  rewrite (twins_predict_on t Ht). reflexivity.
Qed.

Lemma sweep_reports_sound_witness :
  exists reps,
    sweep train_twins test_known_row [DISTANCE_THRESHOLD] unbound = Done reps /\
    map rep_threshold reps = [DISTANCE_THRESHOLD] /\
    Forall report_sound reps.
Proof.
  assert (Ht : 0 <= DISTANCE_THRESHOLD) by (unfold DISTANCE_THRESHOLD; lra).
  assert (H : exists reps,
             sweep train_twins test_known_row [DISTANCE_THRESHOLD] unbound
             = Done reps).
  { cbn [sweep]. unfold sweep_iteration. rewrite sweep_step_run.
    unfold test_known_row. rewrite (twins_batch_single _ _ Ht).
    rewrite twins_state. eexists. reflexivity. }
  destruct H as [reps H]. exists reps. split; [exact H |].
  exact (sweep_reports_sound _ _ _ _ H).
Defined.

Lemma sweep_failures_witness :
  train_twins <> [] /\ test_unknown_row <> [] /\
  ~ has_known_row train_twins test_unknown_row /\
  sweep_iteration train_twins test_unknown_row unbound DISTANCE_THRESHOLD
  = Fail NameError.
Proof.
  assert (Ht : 0 <= DISTANCE_THRESHOLD) by (unfold DISTANCE_THRESHOLD; lra).
  assert (H1 : train_twins <> []) by discriminate.
  assert (H2 : test_unknown_row <> []) by discriminate.
  assert (H3 : ~ has_known_row train_twins test_unknown_row).
  { intros (r & [<- | []] & Hk). cbn in Hk.
    destruct Hk as [Hk | [Hk | []]]; discriminate. }
  split; [exact H1 |]. split; [exact H2 |]. split; [exact H3 |].
  destruct (sweep_failures train_twins test_unknown_row unbound DISTANCE_THRESHOLD)
    as (_ & _ & _ & Hname).
  exact (Hname _ H1 H2 (twins_batch_single _ _ Ht) H3 eq_refl).
Defined.


(** ** Feature extraction *)

Lemma dict_get_in (d : list (Z * Z)) (k v : Z) :
  dict_get d k = Some v -> In (k, v) d.
Proof.
  induction d as [| [k' v'] rest IH]; simpl; [discriminate |].
  destruct (k' =? k)%Z eqn:E.
  - apply Z.eqb_eq in E. intros H. injection H as <-. left. now subst.
  - intros H. right. now apply IH.
Qed.

(** X28: the fallback table is defined exactly on the months 1 to 12; the
    day it gives lies inside that month, in a leap year as in any other, hence
    between 1 and 366; and later months get later days. *)
Theorem fallback_day_inside_month (month day : Z) (leap : bool) :
  (month_to_day_of_year month = Some day ->
   (1 <= month <= 12)%Z /\
   (days_before leap month < day <= days_before leap month
                                    + days_in_month leap month)%Z /\
   (1 <= day <= 366)%Z) /\
  ((1 <= month <= 12)%Z -> exists d, month_to_day_of_year month = Some d) /\
  (forall month' day',
     month_to_day_of_year month = Some day ->
     month_to_day_of_year month' = Some day' ->
     (month < month')%Z -> (day < day')%Z).
Proof.
  split; [| split].
  - intros H. apply dict_get_in in H. unfold month_table in H. cbn [In] in H.
    repeat (destruct H as [H | H]; [injection H as <- <-; destruct leap;
                                    cbv; repeat split; congruence |]).
    destruct H.
  - intros H.
    assert (Hm : (month = 1 \/ month = 2 \/ month = 3 \/ month = 4 \/ month = 5 \/
                  month = 6 \/ month = 7 \/ month = 8 \/ month = 9 \/ month = 10 \/
                  month = 11 \/ month = 12)%Z) by lia.
    repeat (destruct Hm as [-> | Hm]; [eexists; reflexivity |]).
    subst. eexists. reflexivity.
  - intros month' day' H H'.
    apply dict_get_in in H, H'. unfold month_table in H, H'. cbn [In] in H, H'.
    repeat (destruct H as [H | H]; [injection H as <- <- |]); try destruct H;
      repeat (destruct H' as [H' | H']; [injection H' as <- <- |]);
      try destruct H'; lia.
Qed.

(** X29: the fractional start hour of a timestamp lies in [0, 24), it
    determines the hour and the minute it was computed from, and it is a
    whole number exactly on the hour. *)
Theorem start_hour_encoding (hour minute hour' minute' : Z) :
  (0 <= hour <= 23)%Z -> (0 <= minute <= 59)%Z ->
  (0 <= hour' <= 23)%Z -> (0 <= minute' <= 59)%Z ->
  0 <= start_hour_of hour minute < 24 /\
  (start_hour_of hour minute = start_hour_of hour' minute' ->
   hour = hour' /\ minute = minute') /\
  (start_hour_of hour minute = IZR hour <-> minute = 0%Z).
Proof.
  intros Hh Hm Hh' Hm'. unfold start_hour_of.
  assert (B1 : 0 <= IZR hour <= 23) by (split; apply IZR_le; lia).
  assert (B2 : 0 <= IZR minute <= 59) by (split; apply IZR_le; lia).
  split; [lra |]. split.
  - intros H.
    assert (E : IZR (60 * hour + minute) = IZR (60 * hour' + minute')).
    { rewrite !plus_IZR, !mult_IZR. lra. }
    apply eq_IZR in E. lia.
  - split.
    + intros H. apply eq_IZR. lra.
    + intros ->. lra.
Qed.

Lemma start_hour_encoding_witness :
  (0 <= 7 <= 23)%Z /\ (0 <= 30 <= 59)%Z /\
  0 <= start_hour_of 7 30 < 24.
Proof.
  split; [lia |]. split; [lia |].
  apply (start_hour_encoding 7 30 7 30); lia.
Defined.
